(** * The resilient HTTP client of the API gateway

    A shallow embedding of
    [apps/api-gateway/src/common/http-client/http-client.service.ts]
    (class [HttpClient]): option merging, the retry policy handed to
    axios-retry, the per-destination breaker registry and the request
    pipeline, and of the CORS set-up in [apps/api-gateway/src/main.ts].

    Conventions of the embedding.
    - JavaScript numbers that hold milliseconds, counts and statuses are
      integers ([Z]). The numbers read from the environment are integers
      when the variables hold integer literals ([integerSettings]); the
      statements that depend on the value of such a number assume it.
    - An optional field ([x?: T]) is an [option]; [a ?? b] is [default b a];
      an optional chain [a?.b?.c] is a bind in the option monad.
    - [process.env] is a finite map from names to strings.
    - The [Map<string, CircuitBreaker>] is a [gmap]; object identity of a
      breaker is the number of breakers constructed before it.
    - axios, axios-retry and opossum are dependencies of the gateway. The
      client is embedded against their behaviour: axios merges the
      request configuration and settles an exchange by [validateStatus];
      axios-retry re-sends a failed request while [retryCount < retries]
      and [retryCondition] holds, as long as the time-out of the request
      is not used up, and sleeps [retryDelay] in between; an open opossum
      breaker rejects a call without running its action, and a closed one
      rejects the caller when its timer fires before the action settles.
    - Real time enters through two observations: the duration of an
      exchange as axios-retry measures it with [Date.now()], and whether
      the timer of a breaker fires before its action has settled. The
      rolling statistics that open and close a breaker stay inside
      opossum; whether a breaker refuses a call is an observation, too.
    - A sample of [Math.random()] is a rational number in [0, 1).
    - A string is its sequence of bytes. *)

From Stdlib Require Import Ascii String ZArith QArith Qround Lia.
From stdpp Require Import gmap strings list fin_maps pretty.

Local Open Scope string_scope.
Local Open Scope Z_scope.

(** ** Data model *)

Inductive HttpMethod := GET | POST | PUT | PATCH | DELETE.

(** The string that a value of the type [HttpMethod] is. *)
Definition methodName (m : HttpMethod) : string :=
  match m with
  | GET => "GET"
  | POST => "POST"
  | PUT => "PUT"
  | PATCH => "PATCH"
  | DELETE => "DELETE"
  end.

(** [any]: the values that travel as payloads and headers. *)
#[warnings="-register-all"]
Inductive JsValue :=
| JNull
| JBool (b : bool)
| JNum (n : Z)
| JStr (s : string)
| JArr (items : list JsValue)
| JObj (fields : list (string * JsValue)).

(** [HttpResponse<T>] *)
Record HttpResponse := {
  status : Z;
  data : JsValue;
  headers : JsValue;
}.

(** [HttpClientOptions]: what a caller may pass, every field optional. *)
Record RetryOptions := {
  retries : option Z;
  baseDelayMs : option Z;
  maxDelayMs : option Z;
}.

(** [breakerTimeoutMs] is the field [breaker.timeoutMs]. *)
Record BreakerOptions := {
  enabled : option bool;
  breakerTimeoutMs : option Z;
  errorThresholdPercentage : option Z;
  resetTimeoutMs : option Z;
  rollingCountTimeoutMs : option Z;
  rollingCountBuckets : option Z;
}.

Record HttpClientOptions := {
  timeoutMs : option Z;
  retry : option RetryOptions;
  breaker : option BreakerOptions;
}.

(** The object literal that [mergeOptions] returns: every field is set.
    [timeoutMs'] is the top-level [timeoutMs], [timeoutMs] the one of the
    breaker. *)
Module Merged.
Record Retry := {
  retries : Z;
  baseDelayMs : Z;
  maxDelayMs : Z;
}.

Record Breaker := {
  enabled : bool;
  timeoutMs : Z;
  errorThresholdPercentage : Z;
  resetTimeoutMs : Z;
  rollingCountTimeoutMs : Z;
  rollingCountBuckets : Z;
}.

Record Options := {
  timeoutMs' : Z;
  retry : Retry;
  breaker : Breaker;
}.
End Merged.

(** ** Options *)

Section Options.
(** [Number(s)] on a string, a JavaScript built-in. *)
Variable Number : string → Z.
(** [process.env] *)
Variable env : gmap string string.

(** [Number(process.env.NAME ?? dflt)]; [Number] is the identity on a
    number. *)
Definition envNumber (name : string) (dflt : Z) : Z :=
  match env !! name with
  | Some s => Number s
  | None => dflt
  end.

(** [(process.env.NAME ?? dflt) === 'true'] *)
Definition envFlag (name : string) (dflt : string) : bool :=
  bool_decide (default dflt (env !! name) = "true").

Definition mergeOptions (opts : option HttpClientOptions) : Merged.Options :=
  let timeoutMs :=
    default (envNumber "HTTP_TIMEOUT_MS" 6000) (opts ≫= timeoutMs) in
  {| Merged.timeoutMs' := timeoutMs;
     Merged.retry :=
       {| Merged.retries :=
            default (envNumber "HTTP_RETRY_COUNT" 2)
                    ((opts ≫= retry) ≫= retries);
          Merged.baseDelayMs :=
            default (envNumber "HTTP_RETRY_BASE_DELAY_MS" 250)
                    ((opts ≫= retry) ≫= baseDelayMs);
          Merged.maxDelayMs :=
            default (envNumber "HTTP_RETRY_MAX_DELAY_MS" 1500)
                    ((opts ≫= retry) ≫= maxDelayMs) |};
     Merged.breaker :=
       {| Merged.enabled :=
            default (envFlag "HTTP_BREAKER_ENABLED" "true")
                    ((opts ≫= breaker) ≫= enabled);
          Merged.timeoutMs :=
            default (envNumber "HTTP_BREAKER_TIMEOUT_MS" 3500)
                    ((opts ≫= breaker) ≫= breakerTimeoutMs);
          Merged.errorThresholdPercentage :=
            default (envNumber "HTTP_BREAKER_ERR_PCT" 50)
                    ((opts ≫= breaker) ≫= errorThresholdPercentage);
          Merged.resetTimeoutMs :=
            default (envNumber "HTTP_BREAKER_RESET_MS" 10000)
                    ((opts ≫= breaker) ≫= resetTimeoutMs);
          Merged.rollingCountTimeoutMs :=
            default (envNumber "HTTP_BREAKER_ROLLING_MS" 10000)
                    ((opts ≫= breaker) ≫= rollingCountTimeoutMs);
          Merged.rollingCountBuckets :=
            default (envNumber "HTTP_BREAKER_BUCKETS" 10)
                    ((opts ≫= breaker) ≫= rollingCountBuckets) |} |}.
End Options.

(** The characters of a string. *)
Fixpoint chars (s : string) : list ascii :=
  match s with
  | EmptyString => []
  | String c s' => c :: chars s'
  end.

(** A string on which [Number] yields an integer that a JavaScript
    number holds exactly: an optional minus sign and one to fifteen
    decimal digits. On other strings [Number] yields a fraction, [NaN] or
    a rounded value, which [Z] does not hold. *)
Definition isDigit (c : ascii) : bool :=
  ((48 <=? nat_of_ascii c) && (nat_of_ascii c <=? 57))%nat.

Definition isDigits (s : string) : bool :=
  negb (bool_decide (s = EmptyString))
  && forallb isDigit (chars s)
  && (String.length s <=? 15)%nat.

Definition denotesInteger (s : string) : bool :=
  match s with
  | String "-"%char s' => isDigits s'
  | _ => isDigits s
  end.

(** The variables that the client reads with [Number]. *)
Definition numericSettings : list string :=
  ["HTTP_TIMEOUT_MS"; "HTTP_RETRY_COUNT"; "HTTP_RETRY_BASE_DELAY_MS";
   "HTTP_RETRY_MAX_DELAY_MS"; "HTTP_BREAKER_TIMEOUT_MS";
   "HTTP_BREAKER_ERR_PCT"; "HTTP_BREAKER_RESET_MS";
   "HTTP_BREAKER_ROLLING_MS"; "HTTP_BREAKER_BUCKETS"].

(** Every numeric variable that is set holds an integer literal. *)
Definition integerSettings (env : gmap string string) : Prop :=
  ∀ name s, name ∈ numericSettings → env !! name = Some s →
            denotesInteger s = true.

(** ** What axios hands to the client *)

(** The properties of a request configuration that describe the request
    itself. [error.config] carries them back. [others] holds the
    properties that only the transport reads ([baseURL], [params],
    ...). *)
Record RequestFields := {
  method : string;
  url : string;
  body : JsValue;
  timeout : Z;
  requestHeaders : JsValue;
  others : list (string * JsValue);
}.

(** [AxiosError]: [error.code], [error.response], [error.config]. *)
Record AxiosError := {
  code : option string;
  response : option HttpResponse;
  config : RequestFields;
}.

(** ** axios-retry

    The error predicates of the axios-retry package, a dependency of the
    gateway, with the deny list of the package is-retry-allowed that they
    consult, and the options that a single request may override. *)
Module AxiosRetry.
(** is-retry-allowed: the error codes that are never retried. *)
Definition denyList : list string :=
  ["ENOTFOUND"; "ENETUNREACH";
   "UNABLE_TO_GET_ISSUER_CERT"; "UNABLE_TO_GET_CRL";
   "UNABLE_TO_DECRYPT_CERT_SIGNATURE"; "UNABLE_TO_DECRYPT_CRL_SIGNATURE";
   "UNABLE_TO_DECODE_ISSUER_PUBLIC_KEY"; "CERT_SIGNATURE_FAILURE";
   "CRL_SIGNATURE_FAILURE"; "CERT_NOT_YET_VALID"; "CERT_HAS_EXPIRED";
   "CRL_NOT_YET_VALID"; "CRL_HAS_EXPIRED"; "ERROR_IN_CERT_NOT_BEFORE_FIELD";
   "ERROR_IN_CERT_NOT_AFTER_FIELD"; "ERROR_IN_CRL_LAST_UPDATE_FIELD";
   "ERROR_IN_CRL_NEXT_UPDATE_FIELD"; "OUT_OF_MEM";
   "DEPTH_ZERO_SELF_SIGNED_CERT"; "SELF_SIGNED_CERT_IN_CHAIN";
   "UNABLE_TO_GET_ISSUER_CERT_LOCALLY"; "UNABLE_TO_VERIFY_LEAF_SIGNATURE";
   "CERT_CHAIN_TOO_LONG"; "CERT_REVOKED"; "INVALID_CA";
   "PATH_LENGTH_EXCEEDED"; "INVALID_PURPOSE"; "CERT_UNTRUSTED";
   "CERT_REJECTED"; "HOSTNAME_MISMATCH"].

(** [!denyList.has(error && error.code)] *)
Definition isRetryAllowed (error : AxiosError) : bool :=
  match code error with
  | Some c => negb (bool_decide (c ∈ denyList))
  | None => true
  end.

Definition isNetworkError (error : AxiosError) : bool :=
  match response error, code error with
  | Some _, _ => false
  | None, None => false
  | None, Some c =>
      if bool_decide (c = EmptyString) then false
      else if bool_decide (c ∈ ["ERR_CANCELED"; "ECONNABORTED"]) then false
      else isRetryAllowed error
  end.

Definition isRetryableError (error : AxiosError) : bool :=
  negb (bool_decide (code error = Some "ECONNABORTED"))
  && match response error with
     | None => true
     | Some r =>
         bool_decide (status r = 429)
         || ((500 <=? status r) && (status r <=? 599))
     end.

(** [IDEMPOTENT_HTTP_METHODS.indexOf(error.config.method) !== -1], on
    the method name as axios normalised it. *)
Definition idempotent (m : string) : bool :=
  bool_decide (m ∈ ["get"; "head"; "options"; "put"; "delete"]).

Definition isIdempotentRequestError (error : AxiosError) : bool :=
  isRetryableError error && idempotent (method (config error)).

Definition isNetworkOrIdempotentRequestError (error : AxiosError) : bool :=
  isNetworkError error || isIdempotentRequestError error.

(** [IAxiosRetryConfig]: the options that a request may set under its
    ['axios-retry'] property, where they take precedence over the ones
    given to [axiosRetry(...)]. Callbacks that only observe ([onRetry])
    are left out. *)
Record IAxiosRetryConfig := {
  retries : option Z;
  retryCondition : option (AxiosError → bool);
  retryDelay : option (Z → AxiosError → Z);
  shouldResetTimeout : option bool;
}.
End AxiosRetry.

(** [AxiosRequestConfig] as a caller passes it to the public API: the
    properties that the pipeline reads, every one optional, and the
    remaining ones in [others]. [validateStatus] may be set to [null],
    here [Some None]. *)
Module Config.
Record AxiosRequestConfig := {
  method : option string;
  url : option string;
  data : option JsValue;
  timeout : option Z;
  headers : option JsValue;
  validateStatus : option (option (Z → bool));
  axiosRetry : option AxiosRetry.IAxiosRetryConfig;
  others : list (string * JsValue);
}.
End Config.

(** The request configuration as axios works on it. *)
Record AxiosRequest := {
  fields : RequestFields;
  validateStatus : option (Z → bool);
  axiosRetry : option AxiosRetry.IAxiosRetryConfig;
}.

(** [config.timeout = t] *)
Definition withTimeout (req : AxiosRequest) (t : Z) : AxiosRequest :=
  {| fields := {| method := method (fields req);
                  url := url (fields req);
                  body := body (fields req);
                  timeout := t;
                  requestHeaders := requestHeaders (fields req);
                  others := others (fields req) |};
     validateStatus := validateStatus req;
     axiosRetry := axiosRetry req |}.

(** One network exchange as the transport reports it: a response with
    any status, or a failure with a system error code and no response
    (a timeout of the request is [Failed "ECONNABORTED"]). *)
Inductive Wire :=
| Answered (r : HttpResponse)
| Failed (errno : string).

Inductive Settled :=
| Fulfilled (r : HttpResponse)
| Thrown (e : AxiosError).

(** axios: the default [validateStatus] (the constructor leaves the
    override commented out). *)
Definition defaultValidateStatus (s : Z) : bool := (200 <=? s) && (s <? 300).

(** axios: the code put on an error that carries a response,
    [[ERR_BAD_REQUEST, ERR_BAD_RESPONSE][Math.floor(status / 100) - 4]]. *)
Definition statusErrorCode (s : Z) : option string :=
  match s / 100 - 4 with
  | 0 => Some "ERR_BAD_REQUEST"
  | 1 => Some "ERR_BAD_RESPONSE"
  | _ => None
  end.

(** axios: [settle], which resolves or rejects one exchange:
    [!response.status || !validateStatus || validateStatus(response.status)]
    resolves. *)
Definition settle (req : AxiosRequest) (w : Wire) : Settled :=
  match w with
  | Answered r =>
      if (status r =? 0)
         || match validateStatus req with
            | None => true
            | Some validate => validate (status r)
            end
      then Fulfilled r
      else Thrown {| code := statusErrorCode (status r);
                     response := Some r;
                     config := fields req |}
  | Failed errno =>
      Thrown {| code := Some errno; response := None; config := fields req |}
  end.

(** [String.prototype.toLowerCase] on the letters A to Z; the method
    names of HTTP have no other capitals. *)
Definition lowerChar (c : ascii) : ascii :=
  let n := nat_of_ascii c in
  if ((65 <=? n) && (n <=? 90))%nat then ascii_of_nat (n + 32) else c.

Fixpoint toLowerCase (s : string) : string :=
  match s with
  | EmptyString => EmptyString
  | String c s' => String (lowerChar c) (toLowerCase s')
  end.

(** The object [{ ...v }]: an object spreads into its own properties,
    an array and a string into their indexed elements, and [null], a
    boolean or a number into nothing. *)
Definition spread (v : JsValue) : JsValue :=
  match v with
  | JObj properties => JObj properties
  | JArr items => JObj (imap (λ i item, (pretty i, item)) items)
  | JStr s => JObj (imap (λ i c, (pretty i, JStr (String c EmptyString)))
                         (chars s))
  | JNull | JBool _ | JNum _ => JObj []
  end.

(** ** Retry policy *)

(** [Array.prototype.includes] on a possibly undefined status. *)
Definition includes (l : list Z) (x : option Z) : bool :=
  match x with
  | Some s => bool_decide (s ∈ l)
  | None => false
  end.

(** The exponential part of [retryDelay]:
    [Math.min(maxDelayMs, baseDelayMs * 2 ** (retryCount - 1))].
    axios-retry calls it with [retryCount >= 1], where the power is an
    integer. *)
Definition expo (cfg : Merged.Retry) (retryCount : Z) : Z :=
  Z.min (Merged.maxDelayMs cfg) (Merged.baseDelayMs cfg * 2 ^ (retryCount - 1)).

(** [Math.floor(Math.random() * 100)], for a sample [rnd] of
    [Math.random()]. *)
Definition jitter (rnd : Q) : Z := Qfloor (rnd * 100).

(** The [retryDelay] callback given to axios-retry; [retryCount] is the
    number of the retry, 1 for the first one. *)
Definition retryDelay (cfg : Merged.Retry) (retryCount : Z) (rnd : Q) : Z :=
  let expo := expo cfg retryCount in
  let jitter := jitter rnd in
  let delay := expo + jitter in
  delay.

(** ** Circuit breakers *)

Module Opossum.
(** A [CircuitBreaker] object: its identity, the key its listeners
    log, and the options it was constructed with. *)
Record CircuitBreaker := {
  instance : nat;
  name : string;
  timeout : Z;
  errorThresholdPercentage : Z;
  resetTimeout : Z;
  rollingCountTimeout : Z;
  rollingCountBuckets : Z;
}.
End Opossum.

(** The mutable part of an [HttpClient]: the [breakers] map, and the log
    of every [new CircuitBreaker(...)] evaluated so far (ghost state). *)
Record HttpClient := {
  breakers : gmap string Opossum.CircuitBreaker;
  constructed : list Opossum.CircuitBreaker;
}.

(** The client as the constructor leaves it. *)
Definition newHttpClient : HttpClient :=
  {| breakers := ∅; constructed := [] |}.

Definition getOrCreateBreaker (serviceKey : string) (opts : Merged.Options)
    (this : HttpClient) : Opossum.CircuitBreaker * HttpClient :=
  match breakers this !! serviceKey with
  | Some existing => (existing, this)
  | None =>
      let breaker :=
        {| Opossum.instance := length (constructed this);
           Opossum.name := serviceKey;
           Opossum.timeout := Merged.timeoutMs (Merged.breaker opts);
           Opossum.errorThresholdPercentage :=
             Merged.errorThresholdPercentage (Merged.breaker opts);
           Opossum.resetTimeout := Merged.resetTimeoutMs (Merged.breaker opts);
           Opossum.rollingCountTimeout :=
             Merged.rollingCountTimeoutMs (Merged.breaker opts);
           Opossum.rollingCountBuckets :=
             Merged.rollingCountBuckets (Merged.breaker opts) |} in
      (breaker,
       {| breakers := <[serviceKey := breaker]> (breakers this);
          constructed := constructed this ++ [breaker] |})
  end.

(** A sequence of [getOrCreateBreaker] calls on one client. The method
    is synchronous, so on the single-threaded runtime concurrent requests
    reach it one after the other. *)
Definition getOrCreateAll (calls : list (string * Merged.Options))
    (this : HttpClient) : HttpClient :=
  foldl (λ c call, (getOrCreateBreaker call.1 call.2 c).2) this calls.

(** The breakers constructed for [key] so far. *)
Definition constructedFor (key : string) (this : HttpClient)
    : list Opossum.CircuitBreaker :=
  filter (λ b, Opossum.name b = key) (constructed this).

(** The registry invariant: a key has one constructed breaker when it is
    in the map and none when it is not. *)
Definition registered (this : HttpClient) : Prop :=
  ∀ key, length (constructedFor key this)
         = match breakers this !! key with
           | Some _ => 1%nat
           | None => 0%nat
           end.

(** ** The client *)

(** A parsed [URL], as far as the client reads it. *)
Record URL := {
  hostname : string;
}.

(** What a rejected promise carries: the [AxiosError] that axios threw,
    the error of a breaker that refused the call ([EOPENBREAKER]), or the
    error of a breaker whose timer fired ([ETIMEDOUT]). *)
Inductive Failure :=
| AxiosFailure (e : AxiosError)
| BreakerOpen
| BreakerTimeout.

Inductive Promise (A : Type) :=
| Resolved (a : A)
| Rejected (f : Failure).
Arguments Resolved {A} a.
Arguments Rejected {A} f.

(** A finished call: what its promise settled to, how many exchanges the
    transport performed for it and the delays slept between them. *)
Record Call (A : Type) := {
  result : Promise A;
  attempts : nat;
  sleeps : list Z;
}.
Arguments result {A} c.
Arguments attempts {A} c.
Arguments sleeps {A} c.

(** The promise that axios returns for a settled exchange. *)
Definition settledPromise (s : Settled) : Promise HttpResponse :=
  match s with
  | Fulfilled r => Resolved r
  | Thrown e => Rejected (AxiosFailure e)
  end.

(** [(await p).f], keeping the bookkeeping of the call. *)
Definition thenMap {A B : Type} (f : A → B) (c : Call A) : Call B :=
  {| result := match result c with
               | Resolved a => Resolved (f a)
               | Rejected e => Rejected e
               end;
     attempts := attempts c;
     sleeps := sleeps c |}.

(** A call whose breaker timed out: the caller gets the breaker's
    error, while the action runs on. *)
Definition timedOut {A : Type} (c : Call A) : Call A :=
  {| result := Rejected BreakerTimeout;
     attempts := attempts c;
     sleeps := sleeps c |}.

Section Client.
(** [Number(s)] on a string. *)
Variable Number : string → Z.
(** [process.env] *)
Variable env : gmap string string.
(** [new URL(url)]; [None] when it throws. *)
Variable newURL : string → option URL.
(** [axiosRetry.isNetworkOrIdempotentRequestError] *)
Variable isNetworkOrIdempotentRequestError : AxiosError → bool.
(** The transport: the outcome of the [n]-th exchange of the call that
    was started with this request. *)
Variable transport : AxiosRequest → nat → Wire.
(** The milliseconds that axios-retry measures for the [n]-th exchange,
    [Date.now() - lastRequestTime]. *)
Variable duration : nat → Z.
(** The sample of [Math.random()] drawn after the [n]-th exchange. *)
Variable random : nat → Q.
(** Whether a breaker refuses a call at the time of [fire]; the state
    machine behind it lives in opossum. *)
Variable rejects : Opossum.CircuitBreaker → bool.
(** Whether the timer of a breaker fires before the action of this call
    has settled. *)
Variable timerFires : Opossum.CircuitBreaker → bool.

(** *** Retry policy *)

Definition shouldRetry (error : AxiosError) : bool :=
  if isNetworkOrIdempotentRequestError error then true
  else
    let status := status <$> response error in
    if includes [429; 502; 503; 504] status then true
    else false.

(** The constants the constructor reads for axios-retry. *)
Definition axiosRetryConfig : Merged.Retry :=
  {| Merged.retries := envNumber Number env "HTTP_RETRY_COUNT" 2;
     Merged.baseDelayMs := envNumber Number env "HTTP_RETRY_BASE_DELAY_MS" 250;
     Merged.maxDelayMs := envNumber Number env "HTTP_RETRY_MAX_DELAY_MS" 1500 |}.

(** The attempt budget in the words of the specification: the
    configured retry count plus the initial attempt. *)
Definition maxAttempts : Z := Merged.retries axiosRetryConfig + 1.

(** axios-retry, [getRequestOptions]: the options of one request are
    the ones the constructor gave to [axiosRetry], each replaced by the
    one that the request carries under ['axios-retry']. *)
Definition retriesOf (req : AxiosRequest) : Z :=
  default (Merged.retries axiosRetryConfig)
          (axiosRetry req ≫= AxiosRetry.retries).

Definition retryConditionOf (req : AxiosRequest) (error : AxiosError) : bool :=
  match axiosRetry req ≫= AxiosRetry.retryCondition with
  | Some retryCondition => retryCondition error
  | None => shouldRetry error
  end.

(** The delay before retry number [retryCount], which follows the
    [n]-th exchange. *)
Definition retryDelayOf (req : AxiosRequest) (retryCount : Z)
    (error : AxiosError) (n : nat) : Z :=
  match axiosRetry req ≫= AxiosRetry.retryDelay with
  | Some retryDelay => retryDelay retryCount error
  | None => retryDelay axiosRetryConfig retryCount (random n)
  end.

Definition shouldResetTimeoutOf (req : AxiosRequest) : bool :=
  default false (axiosRetry req ≫= AxiosRetry.shouldResetTimeout).

(** [this.axios.request(req)] under the axios-retry interceptor. On a
    thrown error, while [retryCount < retries] and [retryCondition(error)]
    hold, axios-retry counts the retry and computes its delay; unless
    [shouldResetTimeout] is set, a request with a time-out is given up
    when [config.timeout - lastRequestDuration - delay <= 0], and carries
    that difference as its new time-out otherwise; then the request is
    sent again after the delay. In every other case the error is
    rethrown. [sent] exchanges have been performed so far, and
    [timeoutLeft] is [config.timeout]. The logging interceptors return or
    rethrow what they get. *)
Fixpoint retryLoop (req : AxiosRequest) (fuel : nat) (retryCount : Z)
    (sent : nat) (slept : list Z) (timeoutLeft : Z)
    : option (Call HttpResponse) :=
  match fuel with
  | O => None
  | S fuel' =>
      let config := withTimeout req timeoutLeft in
      match settle config (transport req sent) with
      | Fulfilled res =>
          Some {| result := Resolved res;
                  attempts := S sent;
                  sleeps := slept |}
      | Thrown error =>
          if (retryCount <? retriesOf req) && retryConditionOf req error
          then
            let retryCount := retryCount + 1 in
            let delay := retryDelayOf req retryCount error sent in
            if negb (shouldResetTimeoutOf req) && negb (timeoutLeft =? 0)
            then
              let lastRequestDuration := duration sent in
              let timeout := timeoutLeft - lastRequestDuration - delay in
              if timeout <=? 0 then
                Some {| result := Rejected (AxiosFailure error);
                        attempts := S sent;
                        sleeps := slept |}
              else
                retryLoop req fuel' retryCount (S sent) (slept ++ [delay])
                          timeout
            else
              retryLoop req fuel' retryCount (S sent) (slept ++ [delay])
                        timeoutLeft
          else
            Some {| result := Rejected (AxiosFailure error);
                    attempts := S sent;
                    sleeps := slept |}
      end
  end.

Definition axiosRequest (req : AxiosRequest) : option (Call HttpResponse) :=
  retryLoop req (S (Z.to_nat (retriesOf req))) 0 0 [] (timeout (fields req)).

(** The time-out that a request started with [timeoutLeft] carries
    after [k] more retries with the delays of the constructor's
    [retryDelay], when [retryCount] retries and [sent] exchanges lie
    behind it. *)
Fixpoint timeoutAfter (retryCount : Z) (sent : nat) (timeoutLeft : Z)
    (k : nat) : Z :=
  match k with
  | O => timeoutLeft
  | S k' =>
      timeoutAfter (retryCount + 1) (S sent)
        (timeoutLeft - duration sent
         - retryDelay axiosRetryConfig (retryCount + 1) (random sent))
        k'
  end.

(** The time-out of a request lasts for [k] retries: it is not set, or
    what is left of it after each of them is positive. *)
Definition timeoutLasts (req : AxiosRequest) (k : nat) : Prop :=
  timeout (fields req) = 0
  ∨ ∀ i : nat, (i < k)%nat →
      0 < timeoutAfter 0 0 (timeout (fields req)) (S i).

(** *** Core request with breaker *)

(** The object literal that [doAxios] passes to [this.axios.request],
    [{ method, url, data, timeout: timeoutMs, ...config,
       headers: { ...(config?.headers ?? {}) } }], as axios merges it
    with the defaults of the instance: a property of [config] replaces
    the one written before the spread, the method name is put in lower
    case ([get] when it is empty), and [validateStatus] is the default
    one unless [config] sets it. *)
Definition axiosConfig (method : HttpMethod) (url : string)
    (payload : JsValue) (config : option Config.AxiosRequestConfig)
    (timeoutMs : Z) : AxiosRequest :=
  let method := default (methodName method) (config ≫= Config.method) in
  {| fields :=
       {| method := if bool_decide (method = EmptyString) then "get"
                    else toLowerCase method;
          url := default url (config ≫= Config.url);
          body := default payload (config ≫= Config.data);
          timeout := default timeoutMs (config ≫= Config.timeout);
          requestHeaders :=
            spread (default (JObj []) (config ≫= Config.headers));
          others := default [] (Config.others <$> config) |};
     validateStatus :=
       default (Some defaultValidateStatus) (config ≫= Config.validateStatus);
     axiosRetry := config ≫= Config.axiosRetry |}.

Definition doAxios (method : HttpMethod) (url : string) (payload : JsValue)
    (config : option Config.AxiosRequestConfig) (timeoutMs : Z)
    : option (Call HttpResponse) :=
  res ← axiosRequest (axiosConfig method url payload config timeoutMs);
  Some (thenMap (λ res, {| status := status res;
                           data := data res;
                           headers := headers res |}) res).

(** [breaker.fire(args)]: an open breaker rejects without calling its
    action; otherwise the action, [doAxios], runs, and the caller gets
    what it settles to unless the breaker has a time-out
    ([options.timeout] is not zero) and its timer fires first. *)
Definition expires (breaker : Opossum.CircuitBreaker) : bool :=
  negb (Opossum.timeout breaker =? 0) && timerFires breaker.

Definition fire (breaker : Opossum.CircuitBreaker) (method : HttpMethod)
    (url : string) (payload : JsValue)
    (config : option Config.AxiosRequestConfig) (timeoutMs : Z)
    : option (Call HttpResponse) :=
  if rejects breaker then
    Some {| result := Rejected BreakerOpen; attempts := O; sleeps := [] |}
  else
    res ← doAxios method url payload config timeoutMs;
    if expires breaker then Some (timedOut res) else Some res.

Definition deriveServiceKey (url : string) : string :=
  match newURL url with
  | Some u => hostname u
  | None => "default"
  end.

Definition request (method : HttpMethod) (url : string) (payload : JsValue)
    (config : option Config.AxiosRequestConfig)
    (opts : option HttpClientOptions) (this : HttpClient)
    : option (Call JsValue * HttpClient) :=
  let mergedOpts := mergeOptions Number env opts in
  let serviceKey := deriveServiceKey url in
  if Merged.enabled (Merged.breaker mergedOpts) then
    let '(breaker, this) := getOrCreateBreaker serviceKey mergedOpts this in
    res ← fire breaker method url payload config (Merged.timeoutMs' mergedOpts);
    Some (thenMap data res, this)
  else
    res ← doAxios method url payload config (Merged.timeoutMs' mergedOpts);
    Some (thenMap data res, this).

(** *** Public API *)

Definition get (url : string) (config : option Config.AxiosRequestConfig)
    (opts : option HttpClientOptions) :=
  request GET url JNull config opts.

Definition post (url : string) (payload : JsValue)
    (config : option Config.AxiosRequestConfig)
    (opts : option HttpClientOptions) :=
  request POST url payload config opts.

Definition put (url : string) (payload : JsValue)
    (config : option Config.AxiosRequestConfig)
    (opts : option HttpClientOptions) :=
  request PUT url payload config opts.

Definition patch (url : string) (payload : JsValue)
    (config : option Config.AxiosRequestConfig)
    (opts : option HttpClientOptions) :=
  request PATCH url payload config opts.

Definition delete (url : string) (config : option Config.AxiosRequestConfig)
    (opts : option HttpClientOptions) :=
  request DELETE url JNull config opts.
End Client.

(** ** Concrete surroundings for the scenarios

    Instances of the client's parameters, on which the scenarios of the
    specification and the examples below are evaluated. *)

(** [Number] on decimal integer literals. *)
Fixpoint digits (s : string) (acc : Z) : Z :=
  match s with
  | EmptyString => acc
  | String c s' => digits s' (10 * acc + (Z.of_nat (nat_of_ascii c) - 48))
  end.

Definition decimal (s : string) : Z :=
  match s with
  | String "-"%char s' => - digits s' 0
  | _ => digits s 0
  end.

(** [new URL] on [http://host[:port][/path]]; any other string throws. *)
Fixpoint hostPart (s : string) : string :=
  match s with
  | EmptyString => EmptyString
  | String c s' =>
      if bool_decide (c = ":"%char ∨ c = "/"%char) then EmptyString
      else String c (hostPart s')
  end.

Definition httpURL (url : string) : option URL :=
  if String.prefix "http://" url
  then Some {| hostname := hostPart (String.substring 7 (String.length url - 7) url) |}
  else None.

(** A transport that answers every exchange with the same response. *)
Definition always (r : HttpResponse) : AxiosRequest → nat → Wire :=
  λ _ _, Answered r.

(** A transport that plays a script of outcomes and then keeps
    answering with [last]. *)
Definition scripted (script : list Wire) (last : Wire)
    : AxiosRequest → nat → Wire :=
  λ _ n, default last (script !! n).

Definition respond (s : Z) (d : JsValue) : HttpResponse :=
  {| status := s; data := d; headers := JObj [] |}.

(** Caller options that only switch the breaker off. *)
Definition breakerOff : option HttpClientOptions :=
  Some {| timeoutMs := None;
          retry := None;
          breaker := Some {| enabled := Some false;
                             breakerTimeoutMs := None;
                             errorThresholdPercentage := None;
                             resetTimeoutMs := None;
                             rollingCountTimeoutMs := None;
                             rollingCountBuckets := None |} |}.

(** Caller options that switch the breaker off and set the time-out of
    the request. *)
Definition breakerOffWithin (timeoutMs : Z) : option HttpClientOptions :=
  Some {| timeoutMs := Some timeoutMs;
          retry := None;
          breaker := Some {| enabled := Some false;
                             breakerTimeoutMs := None;
                             errorThresholdPercentage := None;
                             resetTimeoutMs := None;
                             rollingCountTimeoutMs := None;
                             rollingCountBuckets := None |} |}.

(** No breaker is open, [Math.random()] keeps returning one half, every
    exchange takes less than a millisecond, and no timer of a breaker
    fires. *)
Definition allClosed : Opossum.CircuitBreaker → bool := λ _, false.
Definition half : nat → Q := λ _, (1 # 2)%Q.
Definition instant : nat → Z := λ _, 0.
Definition inTime : Opossum.CircuitBreaker → bool := λ _, false.

(** Every exchange takes [ms] milliseconds. *)
Definition lasting (ms : Z) : nat → Z := λ _, ms.

(** The predicate of the axios-retry package. *)
Definition libraryPredicate : AxiosError → bool :=
  AxiosRetry.isNetworkOrIdempotentRequestError.

(** Whether axios-retry counts the method of a public call among the
    idempotent ones. *)
Definition idempotentMethod (m : HttpMethod) : bool :=
  AxiosRetry.idempotent (toLowerCase (methodName m)).

(** The response triple as the object [{status, data, headers}]. *)
Definition tripleOf (r : HttpResponse) : JsValue :=
  JObj [("status", JNum (status r)); ("data", data r); ("headers", headers r)].

(** The call of [UserService.findAll]. *)
Definition usersUrl : string := "http://iam-service:3001/users".

Definition usersRequest (m : HttpMethod) : AxiosRequest :=
  axiosConfig m usersUrl JNull None 6000.

(** The error axios throws for an answer with status [s] to
    [usersRequest m], when the request carries the time-out
    [timeoutLeft]. *)
Definition statusError (s : Z) (m : HttpMethod) (timeoutLeft : Z)
    : AxiosError :=
  {| code := statusErrorCode s;
     response := Some (respond s JNull);
     config := fields (withTimeout (usersRequest m) timeoutLeft) |}.

Definition error500 (m : HttpMethod) (timeoutLeft : Z) : AxiosError :=
  statusError 500 m timeoutLeft.

(** The error axios throws when [usersRequest m] fails without a
    response, with the error code [errno]; a request that timed out has
    the code [ECONNABORTED]. *)
Definition networkError (errno : string) (m : HttpMethod) : AxiosError :=
  {| code := Some errno; response := None; config := fields (usersRequest m) |}.

Definition timeoutError (m : HttpMethod) : AxiosError :=
  networkError "ECONNABORTED" m.

(** The retry scenario of the specification: base delay 100 ms, maximal
    delay 800 ms, the default two retries; two 503 answers, then a 200. *)
Definition scenarioEnv : gmap string string :=
  <["HTTP_RETRY_BASE_DELAY_MS" := "100"]> {["HTTP_RETRY_MAX_DELAY_MS" := "800"]}.

Definition scenarioTransport : AxiosRequest → nat → Wire :=
  scripted [Answered (respond 503 JNull); Answered (respond 503 JNull)]
           (Answered (respond 200 (JStr "ok"))).

(** The retry constants of that scenario. *)
Definition scenarioRetry : Merged.Retry :=
  {| Merged.retries := 2; Merged.baseDelayMs := 100; Merged.maxDelayMs := 800 |}.

(** A process started with a negative retry count, and one started with
    ten retries. *)
Definition negativeRetriesEnv : gmap string string :=
  {["HTTP_RETRY_COUNT" := "-1"]}.

Definition tenRetriesEnv : gmap string string :=
  {["HTTP_RETRY_COUNT" := "10"]}.

(** A retry configuration with a small base delay. *)
Definition smallBase : Merged.Retry :=
  {| Merged.retries := 2; Merged.baseDelayMs := 10; Merged.maxDelayMs := 1500 |}.

(** A successful answer to [usersRequest]. *)
Definition okResponse : HttpResponse :=
  {| status := 200;
     data := JArr [JStr "alice"; JStr "bob"];
     headers := JObj [("content-type", JStr "application/json")] |}.

(** The client after its first call to the IAM service, and the breaker
    that call created. *)
Definition iamBreaker : Opossum.CircuitBreaker :=
  (getOrCreateBreaker "iam-service" (mergeOptions decimal ∅ None) newHttpClient).1.

Definition iamClient : HttpClient :=
  (getOrCreateBreaker "iam-service" (mergeOptions decimal ∅ None) newHttpClient).2.

(** Caller options that ask for another breaker configuration. *)
Definition otherBreaker : option HttpClientOptions :=
  Some {| timeoutMs := None;
          retry := None;
          breaker := Some {| enabled := Some true;
                             breakerTimeoutMs := Some 100;
                             errorThresholdPercentage := Some 90;
                             resetTimeoutMs := Some 500;
                             rollingCountTimeoutMs := Some 2000;
                             rollingCountBuckets := Some 4 |} |}.

(** The breaker of the IAM service is open, all others are closed. *)
Definition iamOpen : Opossum.CircuitBreaker → bool :=
  λ b, bool_decide (Opossum.name b = "iam-service").

(** A second destination, and the client after a first call to each of
    the two. *)
Definition productsUrl : string := "http://product-service:3002/products".

Definition twoServices : HttpClient :=
  getOrCreateAll [("iam-service", mergeOptions decimal ∅ None);
                  ("product-service", mergeOptions decimal ∅ None)]
                 newHttpClient.

(** A caller's config that sets nothing. *)
Definition emptyConfig : Config.AxiosRequestConfig :=
  {| Config.method := None;
     Config.url := None;
     Config.data := None;
     Config.timeout := None;
     Config.headers := None;
     Config.validateStatus := None;
     Config.axiosRetry := None;
     Config.others := [] |}.

(** A caller's config that asks axios-retry for [n] retries of this
    request. *)
Definition retrying (n : Z) : Config.AxiosRequestConfig :=
  {| Config.method := None;
     Config.url := None;
     Config.data := None;
     Config.timeout := None;
     Config.headers := None;
     Config.validateStatus := None;
     Config.axiosRetry :=
       Some {| AxiosRetry.retries := Some n;
               AxiosRetry.retryCondition := None;
               AxiosRetry.retryDelay := None;
               AxiosRetry.shouldResetTimeout := None |};
     Config.others := [] |}.

(** A caller's config that names a method, a body and a time-out of its
    own. *)
Definition overriding (m : string) (d : JsValue) (t : Z)
    : Config.AxiosRequestConfig :=
  {| Config.method := Some m;
     Config.url := None;
     Config.data := Some d;
     Config.timeout := Some t;
     Config.headers := None;
     Config.validateStatus := None;
     Config.axiosRetry := None;
     Config.others := [] |}.

(** ** Bookkeeping over calls and the registry *)

(** The time a call spent sleeping between its exchanges. *)
Definition totalSleep {A : Type} (c : Call A) : Z :=
  foldr Z.add 0 (sleeps c).

(** A registry is well formed when every breaker in the map is filed
    under the key it was created for and sits in the construction log at
    the position of its identity, and every logged breaker is the one
    the map holds for its key. *)
Definition wellFormed (this : HttpClient) : Prop :=
  (∀ (key : string) (b : Opossum.CircuitBreaker),
     breakers this !! key = Some b →
     Opossum.name b = key ∧ constructed this !! Opossum.instance b = Some b)
  ∧ (∀ (i : nat) (b : Opossum.CircuitBreaker),
       constructed this !! i = Some b →
       Opossum.instance b = i ∧ breakers this !! Opossum.name b = Some b).

(** Caller options with the [retry] group replaced. *)
Definition withRetry (opts : HttpClientOptions) (r : option RetryOptions)
    : HttpClientOptions :=
  {| timeoutMs := timeoutMs opts; retry := r; breaker := breaker opts |}.

(** Caller options with the top-level [timeoutMs] replaced. *)
Definition withTimeoutMs (opts : HttpClientOptions) (t : option Z)
    : HttpClientOptions :=
  {| timeoutMs := t; retry := retry opts; breaker := breaker opts |}.

(** ** CORS of the gateway bootstrap

    [apps/api-gateway/src/main.ts]: the list of allowed origins read
    from [CORS_ORIGINS] and the [origin] callback given to the CORS
    plugin. *)

(** [s.split(sep)] for a separator of one character. *)
Fixpoint split (sep : ascii) (s : string) : list string :=
  match s with
  | EmptyString => [EmptyString]
  | String c s' =>
      if bool_decide (c = sep) then EmptyString :: split sep s'
      else match split sep s' with
           | piece :: rest => String c piece :: rest
           | [] => [String c EmptyString]
           end
  end.

(** [ls.join(sep)] *)
Fixpoint join (sep : ascii) (ls : list string) : string :=
  match ls with
  | [] => EmptyString
  | [piece] => piece
  | piece :: rest => (piece +:+ String sep (join sep rest))%string
  end.

Section Cors.
(** The white space and line terminators that [String.prototype.trim]
    strips, as far as they are single bytes. *)
Variable whiteSpace : ascii → bool.

Fixpoint trimStart (s : string) : string :=
  match s with
  | EmptyString => EmptyString
  | String c s' => if whiteSpace c then trimStart s' else s
  end.

Fixpoint trimEnd (s : string) : string :=
  match s with
  | EmptyString => EmptyString
  | String c s' =>
      match trimEnd s' with
      | EmptyString => if whiteSpace c then EmptyString else String c EmptyString
      | t => String c t
      end
  end.

Definition trim (s : string) : string := trimEnd (trimStart s).

(** An origin as the allowed list keeps it: not empty, free of commas
    and without white space at either end. *)
Definition cleanOrigin (o : string) : Prop :=
  o ≠ EmptyString ∧ (","%char ∉ chars o) ∧ trim o = o.

(** [(process.env.CORS_ORIGINS ?? '').split(',').map((s) => s.trim())
      .filter(Boolean)] *)
Definition allowedOrigins (env : gmap string string) : list string :=
  filter (λ s, s ≠ EmptyString)
         (trim <$> split ","%char (default EmptyString (env !! "CORS_ORIGINS"))).
End Cors.

(** What the [origin] callback passes to [cb]. *)
Inductive CorsDecision :=
| Allow
| Deny (message : string).

(** The [origin] callback; [origin] is [None] when the request has no
    [Origin] header, and [!origin] also holds of the empty string. *)
Definition corsOrigin (allowed : list string) (origin : option string)
    : CorsDecision :=
  match origin with
  | None => Allow
  | Some o =>
      if bool_decide (o = EmptyString) then Allow
      else if bool_decide (o ∈ allowed) then Allow
      else Deny "Not allowed by CORS"
  end.

(** White space in the ASCII range. *)
Definition asciiWhiteSpace (c : ascii) : bool :=
  bool_decide (nat_of_ascii c ∈ [9; 10; 11; 12; 13; 32]%nat).

(** A string of ASCII characters. In such a string every character is
    one byte, and the white space of [String.prototype.trim] is
    [asciiWhiteSpace]. *)
Definition asciiOnly (s : string) : Prop :=
  Forall (λ c, (nat_of_ascii c < 128)%nat) (chars s).

(** Two origins, and a process whose [CORS_ORIGINS] joins them. *)
Definition exampleOrigins : list string :=
  ["https://app.example.com"; "https://admin.example.com"].

Definition joinedCorsEnv : gmap string string :=
  {["CORS_ORIGINS" := join "," exampleOrigins]}.

(** A process that allows two origins, written with padding. *)
Definition corsEnv : gmap string string :=
  {["CORS_ORIGINS" := " https://app.example.com , https://admin.example.com,"]}.

(** * Properties *)

(** ** Backoff arithmetic *)

Lemma jitter_range (rnd : Q) :
  (0 <= rnd)%Q → (rnd < 1)%Q → 0 ≤ jitter rnd < 100.
Proof.
  intros Hlo Hhi. unfold jitter. split.
  - change 0 with (Qfloor (inject_Z 0)) at 1.
    apply Qfloor_resp_le.
    change (inject_Z 0) with (0 * 100)%Q.
    apply Qmult_le_compat_r; [exact Hlo | discriminate].
  - rewrite Zlt_Qlt.
    apply Qle_lt_trans with (rnd * 100)%Q; [apply Qfloor_le |].
    change (inject_Z 100) with (1 * 100)%Q.
    apply Qmult_lt_compat_r; [reflexivity | exact Hhi].
Qed.

(** Every jitter value from 0 to 99 is drawn for some sample. *)
Lemma jitter_onto (j : Z) :
  0 ≤ j < 100 → jitter (j # 100) = j.
Proof.
  intros Hj. unfold jitter.
  rewrite <- (Qfloor_Z j) at 2. apply Qfloor_comp.
  unfold Qeq. simpl. lia.
Qed.

Lemma jitter_sample_range (j : Z) :
  0 ≤ j < 100 → (0 <= j # 100)%Q ∧ (j # 100 < 1)%Q.
Proof. intros Hj. unfold Qle, Qlt. simpl. lia. Qed.

Lemma expo_le_max (cfg : Merged.Retry) (retryCount : Z) :
  expo cfg retryCount ≤ Merged.maxDelayMs cfg.
Proof. unfold expo. apply Z.le_min_l. Qed.

Lemma expo_monotone (cfg : Merged.Retry) (k1 k2 : Z) :
  0 ≤ Merged.baseDelayMs cfg → 1 ≤ k1 → k1 ≤ k2 →
  expo cfg k1 ≤ expo cfg k2.
Proof.
  intros Hbase Hk1 Hk12. unfold expo.
  apply Z.min_le_compat_l.
  apply Z.mul_le_mono_nonneg_l; [exact Hbase |].
  apply Z.pow_le_mono_r; lia.
Qed.

Lemma retryDelay_unfold (cfg : Merged.Retry) (retryCount : Z) (rnd : Q) :
  retryDelay cfg retryCount rnd = expo cfg retryCount + jitter rnd.
Proof. reflexivity. Qed.

Lemma expo_at_least_base (cfg : Merged.Retry) (retryCount : Z) :
  0 ≤ Merged.baseDelayMs cfg →
  Merged.baseDelayMs cfg ≤ Merged.maxDelayMs cfg →
  1 ≤ retryCount →
  Merged.baseDelayMs cfg ≤ expo cfg retryCount.
Proof.
  intros Hbase Hmax Hcount. unfold expo. apply Z.min_glb; [done|].
  assert (0 < 2 ^ (retryCount - 1)) by (apply Z.pow_pos_nonneg; lia).
  nia.
Qed.

Lemma foldr_add_bounded (l : list Z) (bound : Z) :
  Forall (λ d, d ≤ bound) l →
  foldr Z.add 0 l ≤ Z.of_nat (length l) * bound.
Proof.
  induction 1 as [|d l Hd _ IH]; simpl; [lia|]. lia.
Qed.

(** ** Settling an exchange *)

Lemma withTimeout_same (req : AxiosRequest) :
  withTimeout req (timeout (fields req)) = req.
Proof. by destruct req as [[] ? ?]. Qed.

(** An error carries the configuration of the request it was thrown
    for. *)
Lemma settle_config (req : AxiosRequest) (w : Wire) (e : AxiosError) :
  settle req w = Thrown e → config e = fields req.
Proof.
  unfold settle. destruct w as [r|errno].
  - destruct (_ || _); [discriminate|]. by intros [= <-].
  - by intros [= <-].
Qed.

(** Whether an exchange is fulfilled, and with what, does not depend on
    the time-out that the request carries. *)
Lemma settle_withTimeout_fulfilled (req : AxiosRequest) (t : Z) (w : Wire)
    (r : HttpResponse) :
  settle (withTimeout req t) w = Fulfilled r ↔ settle req w = Fulfilled r.
Proof.
  unfold settle. destruct w as [r'|errno]; [|done].
  cbn [validateStatus withTimeout]. by destruct (_ || _).
Qed.

(** An error differs from the one thrown under another time-out in the
    time-out of its [config] only. *)
Lemma settle_withTimeout_thrown (req : AxiosRequest) (t : Z) (w : Wire)
    (e : AxiosError) :
  settle (withTimeout req t) w = Thrown e →
  ∃ e0, settle req w = Thrown e0
        ∧ code e = code e0
        ∧ response e = response e0
        ∧ method (config e) = method (config e0)
        ∧ timeout (config e) = t.
Proof.
  unfold settle. destruct w as [r'|errno]; cbn [validateStatus withTimeout].
  - destruct (_ || _); [discriminate|]. intros [= <-]. eauto 10.
  - intros [= <-]. eauto 10.
Qed.

(** ** The retry loop *)

Section RetryLoop.
Variable Number : string → Z.
Variable env : gmap string string.
Variable isNetworkOrIdempotentRequestError : AxiosError → bool.
Variable transport : AxiosRequest → nat → Wire.
Variable duration : nat → Z.
Variable random : nat → Q.

Let cfg := axiosRetryConfig Number env.
Let loop := retryLoop Number env isNetworkOrIdempotentRequestError
                      transport duration random.
Let retryable := shouldRetry isNetworkOrIdempotentRequestError.
Let retriesOf' := retriesOf Number env.
Let conditionOf := retryConditionOf isNetworkOrIdempotentRequestError.
Let delayOf := retryDelayOf Number env random.
Let left := timeoutAfter Number env duration random.

Local Ltac expose :=
  unfold cfg, loop, retryable, retriesOf', conditionOf, delayOf, left in *;
  cbn [Merged.retries Merged.baseDelayMs Merged.maxDelayMs
       axiosRetryConfig] in *.

(** A request without options of its own under ['axios-retry'] uses
    the ones of the constructor. *)
Lemma plain_options (req : AxiosRequest) :
  axiosRetry req = None →
  retriesOf' req = Merged.retries cfg
  ∧ (∀ e, conditionOf req e = retryable e)
  ∧ (∀ retryCount e n,
       delayOf req retryCount e n = retryDelay cfg retryCount (random n))
  ∧ shouldResetTimeoutOf req = false.
Proof.
  intros Hplain.
  unfold retriesOf', conditionOf, delayOf, retriesOf, retryConditionOf,
    retryDelayOf, shouldResetTimeoutOf.
  by rewrite Hplain.
Qed.

(** Fuel beyond the retries still allowed always gives a result. *)
Lemma retryLoop_total (req : AxiosRequest) (fuel : nat) :
  ∀ (retryCount : Z) (sent : nat) (slept : list Z) (timeoutLeft : Z),
    (Z.to_nat (retriesOf' req - retryCount) < fuel)%nat →
    is_Some (loop req fuel retryCount sent slept timeoutLeft).
Proof.
  expose.
  induction fuel as [|fuel IH]; intros retryCount sent slept t Hfuel; [lia|].
  simpl.
  destruct (settle _ (transport req sent)) as [res|error]; [eauto|].
  destruct (retryCount <? _) eqn:Hlt; simpl; [|eauto].
  apply Z.ltb_lt in Hlt.
  destruct (retryConditionOf _ _ error); [|eauto].
  destruct (negb _ && negb _).
  - destruct (_ <=? 0); [eauto|]. apply IH. lia.
  - apply IH. lia.
Qed.

(** A finished loop has performed at least one more exchange, at most
    as many more as retries were left; it settled as its last exchange
    did, and slept once before every exchange after the first. *)
Lemma retryLoop_spec (req : AxiosRequest) (fuel : nat) :
  ∀ (retryCount : Z) (sent : nat) (slept : list Z) (timeoutLeft : Z)
    (c : Call HttpResponse),
    loop req fuel retryCount sent slept timeoutLeft = Some c →
    (sent < attempts c)%nat
    ∧ (attempts c ≤ S sent + Z.to_nat (retriesOf' req - retryCount))%nat
    ∧ (∃ t, result c
            = settledPromise (settle (withTimeout req t)
                                     (transport req (pred (attempts c)))))
    ∧ length (sleeps c) = (length slept + (attempts c - S sent))%nat.
Proof.
  expose.
  induction fuel as [|fuel IH]; intros retryCount sent slept t c Hrun;
    [discriminate|].
  simpl in Hrun.
  destruct (settle _ (transport req sent)) as [res|error] eqn:Hsettle.
  { injection Hrun as <-. simpl. repeat split; try lia.
    exists t. by rewrite Hsettle. }
  assert (∀ c' : Call HttpResponse,
            c' = {| result := Rejected (AxiosFailure error);
                    attempts := S sent;
                    sleeps := slept |} →
            (sent < attempts c')%nat
            ∧ (attempts c'
               ≤ S sent + Z.to_nat (retriesOf Number env req - retryCount))%nat
            ∧ (∃ t', result c'
                     = settledPromise
                         (settle (withTimeout req t')
                                 (transport req (pred (attempts c')))))
            ∧ length (sleeps c') = (length slept + (attempts c' - S sent))%nat)
    as Hstop.
  { intros c' ->. simpl. repeat split; try lia.
    exists t. by rewrite Hsettle. }
  assert (∀ t',
            retryCount < retriesOf Number env req →
            retryLoop Number env isNetworkOrIdempotentRequestError transport
                      duration random req fuel (retryCount + 1) (S sent)
                      (slept ++ [retryDelayOf Number env random req
                                              (retryCount + 1) error sent])
                      t' = Some c →
            (sent < attempts c)%nat
            ∧ (attempts c
               ≤ S sent + Z.to_nat (retriesOf Number env req - retryCount))%nat
            ∧ (∃ t', result c
                     = settledPromise
                         (settle (withTimeout req t')
                                 (transport req (pred (attempts c)))))
            ∧ length (sleeps c) = (length slept + (attempts c - S sent))%nat)
    as Hgo.
  { intros t' Hlt Hrun'. apply IH in Hrun' as (Hlo & Hhi & Hres & Hlen).
    rewrite length_app in Hlen. simpl in Hlen.
    repeat split; [lia | lia | exact Hres | lia]. }
  destruct (retryCount <? _) eqn:Hlt; simpl in Hrun;
    [|by apply Hstop; injection Hrun as <-].
  apply Z.ltb_lt in Hlt.
  destruct (retryConditionOf _ _ error);
    [|by apply Hstop; injection Hrun as <-].
  destruct (negb _ && negb _).
  - destruct (_ <=? 0); [by apply Hstop; injection Hrun as <-|].
    eapply Hgo; first [eassumption | reflexivity].
  - eapply Hgo; first [eassumption | reflexivity].
Qed.

(** With the constructor's [retryDelay], the delays slept are those of
    the successive retry counts. *)
Lemma retryLoop_sleeps (req : AxiosRequest) (fuel : nat) :
  axiosRetry req ≫= AxiosRetry.retryDelay = None →
  ∀ (retryCount : Z) (sent : nat) (slept : list Z) (timeoutLeft : Z)
    (c : Call HttpResponse),
    loop req fuel retryCount sent slept timeoutLeft = Some c →
    sleeps c =
      (slept ++ ((λ k : nat, retryDelay cfg (retryCount + 1 + Z.of_nat k)
                                        (random (sent + k)%nat))
                 <$> seq 0 (attempts c - S sent)))%list.
Proof.
  intros Hplain. expose.
  induction fuel as [|fuel IH]; intros retryCount sent slept t c Hrun;
    [discriminate|].
  pose proof (retryLoop_spec req (S fuel) _ _ _ _ _ Hrun) as (Hlo & _).
  simpl in Hrun.
  assert (∀ c' : Call HttpResponse,
            attempts c' = S sent → sleeps c' = slept →
            sleeps c' =
              (slept ++ ((λ k : nat,
                            retryDelay (axiosRetryConfig Number env)
                                       (retryCount + 1 + Z.of_nat k)
                                       (random (sent + k)%nat))
                         <$> seq 0 (attempts c' - S sent)))%list) as Hstop.
  { intros c' -> ->. by rewrite Nat.sub_diag, app_nil_r. }
  assert (∀ t',
            retryLoop Number env isNetworkOrIdempotentRequestError transport
                      duration random req fuel (retryCount + 1) (S sent)
                      (slept ++ [retryDelay (axiosRetryConfig Number env)
                                            (retryCount + 1) (random sent)])
                      t' = Some c →
            sleeps c =
              (slept ++ ((λ k : nat,
                            retryDelay (axiosRetryConfig Number env)
                                       (retryCount + 1 + Z.of_nat k)
                                       (random (sent + k)%nat))
                         <$> seq 0 (attempts c - S sent)))%list) as Hgo.
  { intros t' Hrun'.
    pose proof (retryLoop_spec req fuel _ _ _ _ _ Hrun') as (Hlo' & _).
    apply IH in Hrun'. rewrite Hrun', <- app_assoc. f_equal.
    replace (attempts c - S sent)%nat
      with (S (attempts c - S (S sent))) by lia.
    simpl. f_equal.
    { by rewrite Z.add_0_r, Nat.add_0_r. }
    rewrite <- seq_shift, <- list_fmap_compose.
    apply list_fmap_ext. intros _ k _. simpl.
    replace (retryCount + 1 + 1 + Z.of_nat k)
      with (retryCount + 1 + Z.of_nat (S k)) by lia.
    by rewrite Nat.add_succ_r. }
  unfold retryDelayOf in Hrun. rewrite Hplain in Hrun.
  destruct (settle _ (transport req sent)) as [res|error];
    [by apply Hstop; injection Hrun as <-|].
  destruct (_ && retryConditionOf _ _ error);
    [|by apply Hstop; injection Hrun as <-].
  destruct (negb _ && negb _).
  - destruct (_ <=? 0); [by apply Hstop; injection Hrun as <-|].
    eapply Hgo; first [eassumption | reflexivity].
  - eapply Hgo; first [eassumption | reflexivity].
Qed.

(** Every exchange before the last one threw an error that the retry
    condition accepts. A loop that ends with an error has met one that
    the condition refuses, or has used up its retries, or has used up the
    time-out of the request. *)
Lemma retryLoop_trace (req : AxiosRequest) (fuel : nat) :
  ∀ (retryCount : Z) (sent : nat) (slept : list Z) (timeoutLeft : Z)
    (c : Call HttpResponse),
    loop req fuel retryCount sent slept timeoutLeft = Some c →
    (∀ i : nat, (sent ≤ i < pred (attempts c))%nat →
       ∃ t e, settle (withTimeout req t) (transport req i) = Thrown e
              ∧ conditionOf req e = true)
    ∧ (∀ e, result c = Rejected (AxiosFailure e) →
         conditionOf req e = false
         ∨ retriesOf' req ≤ retryCount + Z.of_nat (attempts c - S sent)
         ∨ (shouldResetTimeoutOf req = false
            ∧ timeout (config e) ≠ 0
            ∧ timeout (config e) - duration (pred (attempts c))
              - delayOf req (retryCount + Z.of_nat (attempts c - S sent) + 1)
                        e (pred (attempts c))
              ≤ 0)).
Proof.
  expose.
  induction fuel as [|fuel IH]; intros retryCount sent slept t c Hrun;
    [discriminate|].
  simpl in Hrun.
  destruct (settle _ (transport req sent)) as [res|error] eqn:Hsettle.
  { injection Hrun as <-. simpl. split; [intros i Hi; lia|].
    intros e He. discriminate. }
  pose proof (settle_config _ _ _ Hsettle) as Hconfig.
  assert (∀ t',
            retryCount < retriesOf Number env req →
            retryConditionOf isNetworkOrIdempotentRequestError req error
            = true →
            retryLoop Number env isNetworkOrIdempotentRequestError transport
                      duration random req fuel (retryCount + 1) (S sent)
                      (slept ++ [retryDelayOf Number env random req
                                              (retryCount + 1) error sent])
                      t' = Some c →
            (∀ i : nat, (sent ≤ i < pred (attempts c))%nat →
               ∃ t e, settle (withTimeout req t) (transport req i) = Thrown e
                      ∧ retryConditionOf isNetworkOrIdempotentRequestError
                                         req e = true)
            ∧ (∀ e, result c = Rejected (AxiosFailure e) →
                 retryConditionOf isNetworkOrIdempotentRequestError req e
                 = false
                 ∨ retriesOf Number env req
                   ≤ retryCount + Z.of_nat (attempts c - S sent)
                 ∨ (shouldResetTimeoutOf req = false
                    ∧ timeout (config e) ≠ 0
                    ∧ timeout (config e) - duration (pred (attempts c))
                      - retryDelayOf Number env random req
                          (retryCount + Z.of_nat (attempts c - S sent) + 1)
                          e (pred (attempts c))
                      ≤ 0))) as Hgo.
  { intros t' Hlt Hcond Hrun'.
    pose proof (retryLoop_spec req fuel _ _ _ _ _ Hrun') as (Hlo & _).
    apply IH in Hrun' as [Hbefore Hlast]. split.
    - intros i Hi. destruct (decide (i = sent)) as [->|Hne]; [eauto|].
      apply Hbefore. lia.
    - intros e He.
      replace (retryCount + Z.of_nat (attempts c - S sent))
        with (retryCount + 1 + Z.of_nat (attempts c - S (S sent))) by lia.
      destruct (Hlast e He) as [Hno|[Hout|Hused]]; [by left | | by right; right].
      right; left. lia. }
  destruct (retryCount <? _) eqn:Hlt; simpl in Hrun.
  2:{ apply Z.ltb_ge in Hlt. injection Hrun as <-. simpl.
      split; [intros i Hi; lia|]. intros e He. right; left.
      rewrite Nat.sub_diag. lia. }
  apply Z.ltb_lt in Hlt.
  destruct (retryConditionOf _ _ error) eqn:Hcond.
  2:{ injection Hrun as <-. simpl. split; [intros i Hi; lia|].
      intros e [= <-]. by left. }
  destruct (negb (shouldResetTimeoutOf req)) eqn:Hreset; simpl in Hrun;
    [|eapply Hgo; first [eassumption | reflexivity]].
  destruct (t =? 0) eqn:Hzero; simpl in Hrun; [eapply Hgo; first [eassumption | reflexivity]|].
  destruct (_ <=? 0) eqn:Hleft; [|eapply Hgo; first [eassumption | reflexivity]].
  injection Hrun as <-. simpl. split; [intros i Hi; lia|].
  intros e [= <-]. right; right.
  apply negb_true_iff in Hreset. apply Z.eqb_neq in Hzero.
  apply Z.leb_le in Hleft. rewrite Hconfig. simpl.
  rewrite Nat.sub_diag, Z.add_0_r. done.
Qed.

(** When the exchange [k] places further on is the first one fulfilled,
    the errors before it are accepted, the retries left reach that far
    and the time-out lasts, the loop resolves with its response after
    [k] retries. *)
Lemma retryLoop_first_success (req : AxiosRequest) (r : HttpResponse)
    (k : nat) :
  axiosRetry req = None →
  ∀ (fuel : nat) (retryCount : Z) (sent : nat) (slept : list Z)
    (timeoutLeft : Z),
    (k < fuel)%nat →
    (∀ (i : nat) (t : Z), (i < k)%nat →
       ∃ e, settle (withTimeout req t) (transport req (sent + i)%nat)
            = Thrown e
            ∧ retryable e = true) →
    settle req (transport req (sent + k)%nat) = Fulfilled r →
    retryCount + Z.of_nat k ≤ Merged.retries cfg →
    (timeoutLeft = 0
     ∨ ∀ i : nat, (i < k)%nat → 0 < left retryCount sent timeoutLeft (S i)) →
    ∃ c, loop req fuel retryCount sent slept timeoutLeft = Some c
         ∧ result c = Resolved r
         ∧ attempts c = S (sent + k).
Proof.
  intros Hplain.
  destruct (plain_options req Hplain) as (Hretries & Hcond & Hdelay & Hreset).
  expose.
  induction k as [|k IH]; intros fuel retryCount sent slept t Hfuel Hbefore
    Hok Hcount Hlasts.
  - destruct fuel as [|fuel]; [lia|]. simpl.
    rewrite Nat.add_0_r in Hok.
    apply (settle_withTimeout_fulfilled req t) in Hok.
    rewrite Hok, Nat.add_0_r. eauto.
  - destruct fuel as [|fuel]; [lia|]. simpl.
    destruct (Hbefore 0%nat t) as (e & He & Hretry); [lia|].
    rewrite Nat.add_0_r in He. rewrite He, Hretries, Hcond, Hretry, Hreset.
    replace (retryCount <? _) with true by (symmetry; apply Z.ltb_lt; lia).
    rewrite Hdelay. simpl.
    assert (∀ t',
              (t' = 0
               ∨ ∀ i : nat, (i < k)%nat →
                   0 < timeoutAfter Number env duration random
                         (retryCount + 1) (S sent) t' (S i)) →
              ∃ c,
                retryLoop Number env isNetworkOrIdempotentRequestError
                          transport duration random req fuel (retryCount + 1)
                          (S sent)
                          (slept ++ [retryDelay (axiosRetryConfig Number env)
                                                (retryCount + 1)
                                                (random sent)])
                          t' = Some c
                ∧ result c = Resolved r
                ∧ attempts c = S (sent + S k)) as Hgo.
    { intros t' Hlasts'.
      destruct (IH fuel (retryCount + 1) (S sent)
                  (slept ++ [retryDelay (axiosRetryConfig Number env)
                               (retryCount + 1) (random sent)])%list t')
        as (c & Hrun & Hres & Hatt).
      - lia.
      - intros i t'' Hi.
        destruct (Hbefore (S i) t'') as (e' & He' & Hretry'); [lia|].
        exists e'. split; [|done].
        by replace (S sent + i)%nat with (sent + S i)%nat by lia.
      - by replace (S sent + k)%nat with (sent + S k)%nat by lia.
      - lia.
      - exact Hlasts'.
      - exists c. split; [exact Hrun|]. split; [exact Hres|]. lia. }
    destruct Hlasts as [->|Hlasts]; simpl; [by apply Hgo; left|].
    destruct (t =? 0) eqn:Hzero; simpl.
    { apply Z.eqb_eq in Hzero. subst t. by apply Hgo; left. }
    pose proof (Hlasts 0%nat ltac:(lia)) as Hfirst. simpl in Hfirst.
    replace (_ <=? 0) with false by (symmetry; apply Z.leb_gt; lia).
    apply Hgo. right. intros i Hi. apply (Hlasts (S i)). lia.
Qed.

(** When every exchange throws an error that the constructor's retry
    condition treats alike, the loop stops after one exchange if the
    condition refuses it, and after all the retries left if it accepts it
    and the time-out lasts. *)
Lemma retryLoop_same_outcome (req : AxiosRequest)
    (error : Z → AxiosError) (accept : bool) (fuel : nat) :
  axiosRetry req = None →
  (∀ n t, settle (withTimeout req t) (transport req n) = Thrown (error t)) →
  (∀ t, retryable (error t) = accept) →
  ∀ (retryCount : Z) (sent : nat) (slept : list Z) (timeoutLeft : Z)
    (c : Call HttpResponse),
    loop req fuel retryCount sent slept timeoutLeft = Some c →
    (∃ t, result c = Rejected (AxiosFailure (error t)))
    ∧ (accept = false → attempts c = S sent)
    ∧ (accept = true →
       (timeoutLeft = 0
        ∨ ∀ i : nat, (i < Z.to_nat (Merged.retries cfg - retryCount))%nat →
            0 < left retryCount sent timeoutLeft (S i)) →
       attempts c = (S sent + Z.to_nat (Merged.retries cfg - retryCount))%nat).
Proof.
  intros Hplain Hthrow Haccept.
  destruct (plain_options req Hplain) as (Hretries & Hcond & Hdelay & Hreset).
  expose.
  induction fuel as [|fuel IH]; intros retryCount sent slept t c Hrun;
    [discriminate|].
  simpl in Hrun.
  rewrite Hthrow, Hretries, Hcond, Haccept, Hreset, Hdelay in Hrun.
  simpl in Hrun.
  destruct (retryCount <? _) eqn:Hlt; simpl in Hrun.
  2:{ apply Z.ltb_ge in Hlt. injection Hrun as <-. simpl.
      split; [eauto|]. split; [done|]. intros _ _. lia. }
  apply Z.ltb_lt in Hlt.
  destruct accept.
  2:{ injection Hrun as <-. simpl. split; [eauto|]. by split. }
  assert (∀ t',
            (t' = 0
             ∨ ∀ i : nat,
                 (i < Z.to_nat (envNumber Number env "HTTP_RETRY_COUNT" 2
                                - (retryCount + 1)))%nat →
                 0 < timeoutAfter Number env duration random
                       (retryCount + 1) (S sent) t' (S i)) →
            retryLoop Number env isNetworkOrIdempotentRequestError transport
                      duration random req fuel (retryCount + 1) (S sent)
                      (slept ++ [retryDelay (axiosRetryConfig Number env)
                                            (retryCount + 1) (random sent)])
                      t' = Some c →
            attempts c
            = (S sent
               + Z.to_nat (envNumber Number env "HTTP_RETRY_COUNT" 2
                           - retryCount))%nat) as Hgo.
  { intros t' Hlasts' Hrun'.
    apply IH in Hrun' as (_ & _ & Hall). rewrite (Hall eq_refl Hlasts'). lia. }
  split; [|split; [done|]].
  - destruct (t =? 0); simpl in Hrun;
      [by apply IH in Hrun as (Hres & _)|].
    destruct (_ <=? 0); [injection Hrun as <-; simpl; eauto|].
    by apply IH in Hrun as (Hres & _).
  - intros _ Hlasts.
    destruct Hlasts as [->|Hlasts]; simpl in Hrun; [by apply (Hgo 0); [left|]|].
    destruct (t =? 0) eqn:Hzero; simpl in Hrun.
    { apply Z.eqb_eq in Hzero. subst t. by apply (Hgo 0); [left|]. }
    pose proof (Hlasts 0%nat ltac:(lia)) as Hfirst. simpl in Hfirst.
    replace (_ <=? 0) with false in Hrun by (symmetry; apply Z.leb_gt; lia).
    eapply Hgo; [|exact Hrun]. right. intros i Hi.
    apply (Hlasts (S i)). lia.
Qed.
(** When every exchange throws an error that the constructor's retry
    condition accepts, and the time-out of the request lasts for [k]
    retries but not for one more, the loop stops after [k] retries. *)
Lemma retryLoop_timeout_used_up (req : AxiosRequest)
    (error : Z → AxiosError) (fuel : nat) :
  axiosRetry req = None →
  (∀ n t, settle (withTimeout req t) (transport req n) = Thrown (error t)) →
  (∀ t, retryable (error t) = true) →
  ∀ (k : nat) (retryCount : Z) (sent : nat) (slept : list Z)
    (timeoutLeft : Z) (c : Call HttpResponse),
    loop req fuel retryCount sent slept timeoutLeft = Some c →
    (k < Z.to_nat (Merged.retries cfg - retryCount))%nat →
    timeoutLeft ≠ 0 →
    (∀ i : nat, (i < k)%nat → 0 < left retryCount sent timeoutLeft (S i)) →
    left retryCount sent timeoutLeft (S k) ≤ 0 →
    attempts c = (S sent + k)%nat.
Proof.
  intros Hplain Hthrow Haccept.
  destruct (plain_options req Hplain) as (Hretries & Hcond & Hdelay & Hreset).
  expose.
  induction fuel as [|fuel IH];
    intros k retryCount sent slept t c Hrun Hk Ht Hlasts Hused;
    [discriminate|].
  simpl in Hrun.
  rewrite Hthrow, Hretries, Hcond, Haccept, Hreset, Hdelay in Hrun.
  replace (retryCount <? _) with true in Hrun
    by (symmetry; apply Z.ltb_lt; lia).
  replace (t =? 0) with false in Hrun by (symmetry; apply Z.eqb_neq; lia).
  simpl in Hrun.
  destruct k as [|k].
  - simpl in Hused.
    replace (_ <=? 0) with true in Hrun by (symmetry; apply Z.leb_le; lia).
    injection Hrun as <-. simpl. lia.
  - pose proof (Hlasts 0%nat ltac:(lia)) as Hfirst. simpl in Hfirst.
    replace (_ <=? 0) with false in Hrun by (symmetry; apply Z.leb_gt; lia).
    apply (IH k) in Hrun.
    + rewrite Hrun. lia.
    + lia.
    + lia.
    + intros i Hi. apply (Hlasts (S i)). lia.
    + exact Hused.
Qed.
End RetryLoop.

(** ** The breaker registry *)

Lemma getOrCreateBreaker_existing (serviceKey : string)
    (existing : Opossum.CircuitBreaker) (opts : Merged.Options)
    (this : HttpClient) :
  breakers this !! serviceKey = Some existing →
  getOrCreateBreaker serviceKey opts this = (existing, this).
Proof. intros Hin. unfold getOrCreateBreaker. by rewrite Hin. Qed.

Lemma getOrCreateBreaker_registers (serviceKey : string)
    (opts : Merged.Options) (this : HttpClient) :
  breakers (getOrCreateBreaker serviceKey opts this).2 !! serviceKey
  = Some (getOrCreateBreaker serviceKey opts this).1.
Proof.
  unfold getOrCreateBreaker.
  destruct (breakers this !! serviceKey) eqn:Hin; simpl; [done|].
  apply lookup_insert_eq.
Qed.

(** A registered breaker is never replaced. *)
Lemma getOrCreateBreaker_stable (key serviceKey : string)
    (b : Opossum.CircuitBreaker) (opts : Merged.Options) (this : HttpClient) :
  breakers this !! key = Some b →
  breakers (getOrCreateBreaker serviceKey opts this).2 !! key = Some b.
Proof.
  intros Hin. unfold getOrCreateBreaker.
  destruct (breakers this !! serviceKey) eqn:Hother; simpl; [done|].
  rewrite lookup_insert_ne; [done | congruence].
Qed.

Lemma getOrCreateAll_stable (calls : list (string * Merged.Options)) :
  ∀ (key : string) (b : Opossum.CircuitBreaker) (this : HttpClient),
    breakers this !! key = Some b →
    breakers (getOrCreateAll calls this) !! key = Some b.
Proof.
  induction calls as [|[serviceKey opts] calls IH]; intros key b this Hin;
    [done|].
  apply IH. simpl. by apply getOrCreateBreaker_stable.
Qed.

Lemma registered_new : registered newHttpClient.
Proof. intros key. simpl. by rewrite lookup_empty. Qed.

Lemma registered_getOrCreateBreaker (serviceKey : string)
    (opts : Merged.Options) (this : HttpClient) :
  registered this → registered (getOrCreateBreaker serviceKey opts this).2.
Proof.
  intros Hreg key. unfold getOrCreateBreaker.
  destruct (breakers this !! serviceKey) eqn:Hin; simpl; [apply Hreg|].
  unfold constructedFor. simpl.
  rewrite filter_app, length_app. fold (constructedFor key this).
  rewrite Hreg.
  destruct (decide (serviceKey = key)) as [->|Hne].
  - rewrite lookup_insert_eq, Hin.
    rewrite filter_cons_True by done. done.
  - rewrite lookup_insert_ne by done.
    rewrite filter_cons_False by done. simpl. lia.
Qed.

Lemma registered_getOrCreateAll (calls : list (string * Merged.Options)) :
  ∀ this, registered this → registered (getOrCreateAll calls this).
Proof.
  induction calls as [|[serviceKey opts] calls IH]; intros this Hreg; [done|].
  apply IH. simpl. by apply registered_getOrCreateBreaker.
Qed.

(** A call for one key leaves the entries of the other keys alone. *)
Lemma getOrCreateBreaker_other (key serviceKey : string)
    (opts : Merged.Options) (this : HttpClient) :
  key ≠ serviceKey →
  breakers (getOrCreateBreaker serviceKey opts this).2 !! key
  = breakers this !! key.
Proof.
  intros Hne. unfold getOrCreateBreaker.
  destruct (breakers this !! serviceKey); simpl; [done|].
  by rewrite lookup_insert_ne.
Qed.

Lemma getOrCreateAll_other (calls : list (string * Merged.Options)) :
  ∀ (key : string) (this : HttpClient),
    key ∉ calls.*1 →
    breakers (getOrCreateAll calls this) !! key = breakers this !! key.
Proof.
  induction calls as [|[serviceKey opts] calls IH]; intros key this Hnotin;
    [done|].
  simpl in Hnotin. apply not_elem_of_cons in Hnotin as [Hne Hnotin].
  simpl. rewrite IH by done. by apply getOrCreateBreaker_other.
Qed.

Lemma getOrCreateAll_app (calls1 calls2 : list (string * Merged.Options))
    (this : HttpClient) :
  getOrCreateAll (calls1 ++ calls2) this
  = getOrCreateAll calls2 (getOrCreateAll calls1 this).
Proof. apply foldl_app. Qed.

Lemma wellFormed_new : wellFormed newHttpClient.
Proof. split; intros ? b Hin; simpl in Hin; by rewrite ?lookup_empty in Hin. Qed.

Lemma wellFormed_getOrCreateBreaker (serviceKey : string)
    (opts : Merged.Options) (this : HttpClient) :
  wellFormed this → wellFormed (getOrCreateBreaker serviceKey opts this).2.
Proof.
  intros [Hmap Hlog]. unfold getOrCreateBreaker.
  destruct (breakers this !! serviceKey) eqn:Hfree; simpl; [by split|].
  split.
  - intros key b Hin. simpl in Hin |- *.
    destruct (decide (serviceKey = key)) as [->|Hne].
    + rewrite lookup_insert_eq in Hin. injection Hin as <-. simpl.
      split; [done|]. by rewrite lookup_app_r, Nat.sub_diag.
    + rewrite lookup_insert_ne in Hin by done.
      destruct (Hmap key b Hin) as [Hname Hpos]. split; [done|].
      by apply lookup_app_l_Some.
  - intros i b Hin. simpl in Hin |- *.
    apply lookup_app_Some in Hin as [Hin | [Hge Hin]].
    + destruct (Hlog i b Hin) as [Hid Hreg]. split; [done|].
      rewrite lookup_insert_ne; [done|].
      intros Heq. rewrite <- Heq in Hreg. congruence.
    + destruct (i - length (constructed this))%nat as [|j] eqn:Hi;
        [|by destruct j].
      injection Hin as <-. simpl. split; [lia|]. apply lookup_insert_eq.
Qed.

Lemma wellFormed_getOrCreateAll (calls : list (string * Merged.Options)) :
  ∀ this, wellFormed this → wellFormed (getOrCreateAll calls this).
Proof.
  induction calls as [|[serviceKey opts] calls IH]; intros this Hwf; [done|].
  apply IH. simpl. by apply wellFormed_getOrCreateBreaker.
Qed.

(** The breaker that a call obtains is named after the key of the call. *)
Lemma getOrCreateBreaker_name (serviceKey : string) (opts : Merged.Options)
    (this : HttpClient) :
  wellFormed this →
  Opossum.name (getOrCreateBreaker serviceKey opts this).1 = serviceKey.
Proof.
  intros [Hmap _]. unfold getOrCreateBreaker.
  destruct (breakers this !! serviceKey) as [b|] eqn:Hin; simpl; [|done].
  by destruct (Hmap serviceKey b Hin).
Qed.

(** ** The request pipeline *)

Lemma thenMap_rebuild (c : Call HttpResponse) :
  thenMap (λ res, {| status := status res;
                     data := data res;
                     headers := headers res |}) c = c.
Proof. destruct c as [[[s d h]|f] n sl]; reflexivity. Qed.

(** [shouldRetry] is the disjunction of the library's predicate and the
    membership of the status in the retryable set. *)
Lemma shouldRetry_unfold
    (isNetworkOrIdempotentRequestError : AxiosError → bool)
    (error : AxiosError) :
  shouldRetry isNetworkOrIdempotentRequestError error
  = isNetworkOrIdempotentRequestError error
    || includes [429; 502; 503; 504] (status <$> response error).
Proof.
  unfold shouldRetry.
  destruct (isNetworkOrIdempotentRequestError error); [done|]. simpl.
  by destruct (includes _ _).
Qed.

Section Request.
Variable Number : string → Z.
Variable env : gmap string string.
Variable newURL : string → option URL.
Variable isNetworkOrIdempotentRequestError : AxiosError → bool.
Variable transport : AxiosRequest → nat → Wire.
Variable duration : nat → Z.
Variable random : nat → Q.
Variable rejects : Opossum.CircuitBreaker → bool.
Variable timerFires : Opossum.CircuitBreaker → bool.

Variable m : HttpMethod.
Variable u : string.
Variable payload : JsValue.
Variable callConfig : option Config.AxiosRequestConfig.
Variable opts : option HttpClientOptions.
Variable this : HttpClient.

Let cfg := axiosRetryConfig Number env.
Let axiosRequest' :=
  axiosRequest Number env isNetworkOrIdempotentRequestError transport
               duration random.
Let request' :=
  request Number env newURL isNetworkOrIdempotentRequestError transport
          duration random rejects timerFires.
Let mergedOpts := mergeOptions Number env opts.
(** The configuration that reaches axios for this call. *)
Let req := axiosConfig m u payload callConfig (Merged.timeoutMs' mergedOpts).
Let key := deriveServiceKey newURL u.
(** The breaker of the call and the client it leaves. *)
Let reg := getOrCreateBreaker key mergedOpts this.
Let enabled := Merged.enabled (Merged.breaker mergedOpts).

Lemma axiosRequest_total (r : AxiosRequest) : is_Some (axiosRequest' r).
Proof. apply retryLoop_total. rewrite Z.sub_0_r. lia. Qed.

Lemma doAxios_axiosRequest :
  doAxios Number env isNetworkOrIdempotentRequestError transport duration
          random m u payload callConfig (Merged.timeoutMs' mergedOpts)
  = axiosRequest' req.
Proof.
  unfold doAxios, axiosRequest', req.
  destruct (axiosRequest _ _ _ _ _ _ _) as [res|]; simpl; [|done].
  by rewrite thenMap_rebuild.
Qed.

(** [request] always returns: through an open breaker with a rejection
    and no exchange; through a breaker whose timer fires with the error
    of the breaker; otherwise with the [data] of what axios settled
    to. *)
Lemma request_equation :
  ∃ res, axiosRequest' req = Some res
    ∧ (1 ≤ attempts res)%nat
    ∧ request' m u payload callConfig opts this
      = if enabled then
          if rejects reg.1
          then Some ({| result := Rejected BreakerOpen;
                        attempts := O;
                        sleeps := [] |}, reg.2)
          else if expires timerFires reg.1
               then Some (thenMap data (timedOut res), reg.2)
               else Some (thenMap data res, reg.2)
        else Some (thenMap data res, this).
Proof.
  destruct (axiosRequest_total req) as [res Hres].
  exists res. split; [exact Hres|]. split.
  { apply retryLoop_spec in Hres as (Hlo & _). lia. }
  unfold request', request. fold mergedOpts key. unfold enabled, reg.
  destruct (Merged.enabled (Merged.breaker mergedOpts)).
  - destruct (getOrCreateBreaker key mergedOpts this) as [breaker this'].
    cbn [fst snd]. unfold fire. destruct (rejects breaker); [done|].
    rewrite doAxios_axiosRequest, Hres. simpl.
    by destruct (expires timerFires breaker).
  - rewrite doAxios_axiosRequest, Hres. done.
Qed.

(** What the call settles to, in terms of what axios settled to. *)
Lemma request_settles (c : Call JsValue) (this' : HttpClient) :
  request' m u payload callConfig opts this = Some (c, this') →
  (c = {| result := Rejected BreakerOpen; attempts := O; sleeps := [] |})
  ∨ ∃ res,
      axiosRequest' req = Some res
      ∧ (c = thenMap data res ∨ c = thenMap data (timedOut res)).
Proof.
  intros Hcall. destruct request_equation as (res & Hres & _ & Heq).
  rewrite Heq in Hcall.
  destruct enabled;
    [destruct (rejects _); [|destruct (expires _ _)]|];
    injection Hcall as <- <-; eauto.
Qed.

(** A call that no breaker stops settles as axios does. *)
Lemma request_passes :
  enabled = false
  ∨ (rejects reg.1 = false ∧ expires timerFires reg.1 = false) →
  ∃ res, axiosRequest' req = Some res
    ∧ request' m u payload callConfig opts this
      = Some (thenMap data res, if enabled then reg.2 else this).
Proof.
  intros Hpass. destruct request_equation as (res & Hres & _ & Heq).
  exists res. split; [exact Hres|]. rewrite Heq.
  destruct enabled; [|done].
  destruct Hpass as [Hoff|[Hclosed Hintime]]; [discriminate|].
  by rewrite Hclosed, Hintime.
Qed.
End Request.

(** * The claims of the specification *)

(** ** Options *)

(** C4. For every caller options object, absent or partially populated
    at any level, [mergeOptions] returns a configuration with every field
    set: the caller's value where the caller supplied one, and otherwise
    the process-wide default, which is what [mergeOptions] yields for
    absent options. With no override in the environment the defaults are
    6000, 2, 250, 1500, true, 3500, 50, 10000, 10000 and 10. *)
Theorem mergeOptions_populated (Number : string → Z)
    (env : gmap string string) (opts : option HttpClientOptions) :
  let merged := mergeOptions Number env opts in
  let dflt := mergeOptions Number env None in
  Merged.timeoutMs' merged
    = default (Merged.timeoutMs' dflt) (opts ≫= timeoutMs)
  ∧ Merged.retries (Merged.retry merged)
    = default (Merged.retries (Merged.retry dflt))
              ((opts ≫= retry) ≫= retries)
  ∧ Merged.baseDelayMs (Merged.retry merged)
    = default (Merged.baseDelayMs (Merged.retry dflt))
              ((opts ≫= retry) ≫= baseDelayMs)
  ∧ Merged.maxDelayMs (Merged.retry merged)
    = default (Merged.maxDelayMs (Merged.retry dflt))
              ((opts ≫= retry) ≫= maxDelayMs)
  ∧ Merged.enabled (Merged.breaker merged)
    = default (Merged.enabled (Merged.breaker dflt))
              ((opts ≫= breaker) ≫= enabled)
  ∧ Merged.timeoutMs (Merged.breaker merged)
    = default (Merged.timeoutMs (Merged.breaker dflt))
              ((opts ≫= breaker) ≫= breakerTimeoutMs)
  ∧ Merged.errorThresholdPercentage (Merged.breaker merged)
    = default (Merged.errorThresholdPercentage (Merged.breaker dflt))
              ((opts ≫= breaker) ≫= errorThresholdPercentage)
  ∧ Merged.resetTimeoutMs (Merged.breaker merged)
    = default (Merged.resetTimeoutMs (Merged.breaker dflt))
              ((opts ≫= breaker) ≫= resetTimeoutMs)
  ∧ Merged.rollingCountTimeoutMs (Merged.breaker merged)
    = default (Merged.rollingCountTimeoutMs (Merged.breaker dflt))
              ((opts ≫= breaker) ≫= rollingCountTimeoutMs)
  ∧ Merged.rollingCountBuckets (Merged.breaker merged)
    = default (Merged.rollingCountBuckets (Merged.breaker dflt))
              ((opts ≫= breaker) ≫= rollingCountBuckets)
  ∧ mergeOptions Number ∅ None
    = {| Merged.timeoutMs' := 6000;
         Merged.retry := {| Merged.retries := 2;
                            Merged.baseDelayMs := 250;
                            Merged.maxDelayMs := 1500 |};
         Merged.breaker := {| Merged.enabled := true;
                              Merged.timeoutMs := 3500;
                              Merged.errorThresholdPercentage := 50;
                              Merged.resetTimeoutMs := 10000;
                              Merged.rollingCountTimeoutMs := 10000;
                              Merged.rollingCountBuckets := 10 |} |}.
Proof. cbv zeta. repeat split. Qed.

(** The defaults follow the environment when it overrides them. *)
Example mergeOptions_environment :
  Merged.retry (mergeOptions decimal scenarioEnv breakerOff)
  = {| Merged.retries := 2; Merged.baseDelayMs := 100; Merged.maxDelayMs := 800 |}
  ∧ Merged.enabled (Merged.breaker (mergeOptions decimal scenarioEnv breakerOff))
    = false.
Proof. split; reflexivity. Qed.

(** ** Retry eligibility *)

(** axios-retry's predicate on an error that carries a response: it
    accepts a 429 and a 5xx answer to an idempotent request and nothing
    else. *)
Lemma library_on_response (error : AxiosError) (r : HttpResponse) :
  response error = Some r →
  code error ≠ Some "ECONNABORTED" →
  AxiosRetry.isNetworkOrIdempotentRequestError error
  = (bool_decide (status r = 429) || ((500 <=? status r) && (status r <=? 599)))
    && AxiosRetry.idempotent (method (config error)).
Proof.
  intros Hr Hcode.
  unfold AxiosRetry.isNetworkOrIdempotentRequestError,
    AxiosRetry.isNetworkError, AxiosRetry.isIdempotentRequestError,
    AxiosRetry.isRetryableError.
  rewrite Hr. simpl. by rewrite bool_decide_eq_false_2 by done.
Qed.

(** axios-retry's predicate on an error without a response that is not
    a time-out of the request: a network error, or any such error of an
    idempotent request. *)
Lemma library_without_response (error : AxiosError) :
  response error = None →
  code error ≠ Some "ECONNABORTED" →
  AxiosRetry.isNetworkOrIdempotentRequestError error
  = match code error with
    | Some c => negb (bool_decide (c = EmptyString))
                && negb (bool_decide (c = "ERR_CANCELED"))
                && AxiosRetry.isRetryAllowed error
    | None => false
    end
    || AxiosRetry.idempotent (method (config error)).
Proof.
  intros Hr Hcode.
  unfold AxiosRetry.isNetworkOrIdempotentRequestError,
    AxiosRetry.isNetworkError, AxiosRetry.isIdempotentRequestError,
    AxiosRetry.isRetryableError.
  rewrite Hr. rewrite (bool_decide_eq_false_2 _ Hcode). simpl.
  f_equal. destruct (code error) as [c|]; [|done].
  destruct (bool_decide (c = EmptyString)) eqn:Hempty; [done|]. simpl.
  destruct (bool_decide (c = "ERR_CANCELED")) eqn:Hcancel.
  - apply bool_decide_eq_true in Hcancel. subst c. done.
  - apply bool_decide_eq_false in Hcancel.
    rewrite bool_decide_eq_false_2; [done|].
    rewrite !elem_of_cons, elem_of_nil. intros [->|[->|[]]]; congruence.
Qed.

(** C1 (as amended). For every failure other than a time-out of the
    request (error code [ECONNABORTED]), [shouldRetry] returns true
    exactly in these cases. The failure carries no response, and it is a
    connectivity error that axios-retry takes for a network error (it has
    an error code, other than [ERR_CANCELED], that is-retry-allowed does
    not deny), or the request is idempotent. Or the failure carries a
    response, and its status is 429, 502, 503 or 504, or its status is a
    5xx one and the request is idempotent. For every other such failure,
    among them every 4xx answer other than 429 and a 500 answer to a
    request that is not idempotent, it returns false. *)
Theorem shouldRetry_characterisation (error : AxiosError) :
  code error ≠ Some "ECONNABORTED" →
  shouldRetry AxiosRetry.isNetworkOrIdempotentRequestError error = true
  ↔ match response error with
    | None =>
        (∃ c, code error = Some c ∧ c ≠ EmptyString ∧ c ≠ "ERR_CANCELED"
              ∧ c ∉ AxiosRetry.denyList)
        ∨ method (config error) ∈ ["get"; "head"; "options"; "put"; "delete"]
    | Some r =>
        status r ∈ [429; 502; 503; 504]
        ∨ (500 ≤ status r ≤ 599
           ∧ method (config error)
             ∈ ["get"; "head"; "options"; "put"; "delete"])
    end.
Proof.
  intros Hcode. rewrite shouldRetry_unfold.
  destruct (response error) as [r|] eqn:Hr.
  - rewrite (library_on_response error r Hr Hcode). simpl.
    unfold AxiosRetry.idempotent.
    rewrite orb_true_iff, andb_true_iff, orb_true_iff, andb_true_iff,
      !bool_decide_eq_true, Z.leb_le, Z.leb_le.
    rewrite !elem_of_cons, elem_of_nil. split.
    + intros [[[H429|Hrange] Hidem]|Hset]; [by left; left | by right | by left].
    + intros [Hset|[Hrange Hidem]]; [by right | by left; split; [right|]].
  - rewrite (library_without_response error Hr Hcode). simpl.
    rewrite orb_false_r. unfold AxiosRetry.idempotent, AxiosRetry.isRetryAllowed.
    rewrite orb_true_iff, bool_decide_eq_true.
    destruct (code error) as [c|]; simpl.
    + rewrite !andb_true_iff, !negb_true_iff, !bool_decide_eq_false.
      split.
      * intros [[[Hempty Hcancel] Hallowed]|Hidem]; [left | by right].
        exists c. done.
      * intros [(c' & [= <-] & Hempty & Hcancel & Hallowed)|Hidem];
          [by left | by right].
    + split.
      * intros [?|Hidem]; [done | by right].
      * intros [(c' & ? & _)|Hidem]; [done | by right].
Qed.

Lemma shouldRetry_characterisation_witness :
  code (networkError "ECONNRESET" POST) ≠ Some "ECONNABORTED"
  ∧ shouldRetry AxiosRetry.isNetworkOrIdempotentRequestError
                (networkError "ECONNRESET" POST) = true.
Proof.
  assert (code (networkError "ECONNRESET" POST) ≠ Some "ECONNABORTED")
    as Hcode by discriminate.
  split; [exact Hcode|].
  apply (shouldRetry_characterisation _ Hcode). simpl. left.
  exists "ECONNRESET". split; [reflexivity|].
  split; [discriminate|]. split; [discriminate|].
  apply (bool_decide_unpack _). vm_compute. reflexivity.
Defined.

(** C1, counterexample. A GET answered with status 500 fails with an
    error that carries a response, so the failure is neither a
    connectivity nor a time-out error, and 500 is outside the set; yet
    [shouldRetry] returns true, because axios-retry's predicate accepts
    a 5xx answer to an idempotent request. *)
Lemma shouldRetry_500_on_GET :
  settle (usersRequest GET) (Answered (respond 500 JNull))
  = Thrown (error500 GET 6000)
  ∧ status <$> response (error500 GET 6000) = Some 500
  ∧ shouldRetry libraryPredicate (error500 GET 6000) = true.
Proof. repeat split. Qed.

(** The same answer to a POST is not retried. A connectivity error is
    retried whatever the method, unless is-retry-allowed denies its code:
    a failed name resolution of a POST is not retried. A request that
    timed out is not retried either, although the comment in
    [shouldRetry] announces it. *)
Example shouldRetry_500_on_POST :
  shouldRetry libraryPredicate (error500 POST 6000) = false.
Proof. reflexivity. Qed.

Example shouldRetry_connection_reset :
  settle (usersRequest POST) (Failed "ECONNRESET")
  = Thrown (networkError "ECONNRESET" POST)
  ∧ shouldRetry libraryPredicate (networkError "ECONNRESET" POST) = true.
Proof. split; reflexivity. Qed.

Example shouldRetry_name_not_found :
  shouldRetry libraryPredicate (networkError "ENOTFOUND" POST) = false
  ∧ shouldRetry libraryPredicate (networkError "ENOTFOUND" GET) = true.
Proof. split; reflexivity. Qed.

Example shouldRetry_timeout :
  settle (usersRequest GET) (Failed "ECONNABORTED") = Thrown (timeoutError GET)
  ∧ shouldRetry libraryPredicate (timeoutError GET) = false.
Proof. split; reflexivity. Qed.

(** ** Backoff delay *)

(** C2. The delay slept before attempt [n >= 2], which is the
    [retryDelay] of retry count [n - 1], is
    [min(maxDelay, baseDelay * 2^(n-2))] plus a jitter that the sample of
    [Math.random()] decides: for every sample in [0, 1) the jitter is a
    whole number of milliseconds from 0 up to but excluding 100, every
    one of these hundred values is the jitter of some sample, the sample
    0 adds nothing, and a larger sample never gives a smaller delay. With
    base delay 100 and maximal delay 800 the first two retry delays are
    100 and 200 plus jitter. The assumption that the base delay is at
    most the maximal one is not needed. *)
Theorem retryDelay_of_attempt (cfg : Merged.Retry) (n : Z) :
  2 ≤ n →
  let backoff :=
    Z.min (Merged.maxDelayMs cfg) (Merged.baseDelayMs cfg * 2 ^ (n - 2)) in
  (∀ rnd : Q, (0 <= rnd)%Q → (rnd < 1)%Q →
     ∃ j : Z, 0 ≤ j < 100 ∧ retryDelay cfg (n - 1) rnd = backoff + j)
  ∧ (∀ j : Z, 0 ≤ j < 100 →
       ∃ rnd : Q, (0 <= rnd)%Q ∧ (rnd < 1)%Q
                  ∧ retryDelay cfg (n - 1) rnd = backoff + j)
  ∧ retryDelay cfg (n - 1) 0 = backoff
  ∧ (∀ rnd1 rnd2 : Q, (rnd1 <= rnd2)%Q →
       retryDelay cfg (n - 1) rnd1 ≤ retryDelay cfg (n - 1) rnd2)
  ∧ (Merged.baseDelayMs cfg = 100 → Merged.maxDelayMs cfg = 800 →
     ∀ rnd : Q, (0 <= rnd)%Q → (rnd < 1)%Q →
       100 ≤ retryDelay cfg 1 rnd < 200 ∧ 200 ≤ retryDelay cfg 2 rnd < 300).
Proof.
  intros Hn backoff.
  assert (∀ rnd, retryDelay cfg (n - 1) rnd = backoff + jitter rnd) as Hdelay.
  { intros rnd. rewrite retryDelay_unfold. unfold expo, backoff.
    by replace (n - 1 - 1) with (n - 2) by lia. }
  split; [|split; [|split; [|split]]].
  - intros rnd Hlo Hhi. exists (jitter rnd).
    split; [by apply jitter_range | apply Hdelay].
  - intros j Hj. exists (j # 100)%Q.
    destruct (jitter_sample_range j Hj) as [Hlo Hhi].
    split; [exact Hlo|]. split; [exact Hhi|].
    by rewrite Hdelay, jitter_onto.
  - rewrite Hdelay. change (jitter 0) with 0. apply Z.add_0_r.
  - intros rnd1 rnd2 Hle. rewrite !Hdelay. unfold jitter.
    apply Z.add_le_mono_l, Qfloor_resp_le.
    apply Qmult_le_compat_r; [exact Hle | discriminate].
  - intros Hbase Hmax rnd Hlo Hhi.
    pose proof (jitter_range rnd Hlo Hhi) as Hj.
    rewrite !retryDelay_unfold. unfold expo. rewrite Hbase, Hmax.
    simpl. lia.
Qed.

Lemma retryDelay_of_attempt_witness :
  2 ≤ 3
  ∧ Merged.baseDelayMs scenarioRetry = 100
  ∧ Merged.maxDelayMs scenarioRetry = 800
  ∧ (∃ j : Z, 0 ≤ j < 100
              ∧ retryDelay scenarioRetry (3 - 1) (1 # 2)
                = Z.min (Merged.maxDelayMs scenarioRetry)
                        (Merged.baseDelayMs scenarioRetry * 2 ^ (3 - 2))
                  + j)
  ∧ (∃ rnd : Q, (0 <= rnd)%Q ∧ (rnd < 1)%Q
                ∧ retryDelay scenarioRetry (3 - 1) rnd
                  = Z.min (Merged.maxDelayMs scenarioRetry)
                          (Merged.baseDelayMs scenarioRetry * 2 ^ (3 - 2))
                    + 37)
  ∧ 100 ≤ retryDelay scenarioRetry 1 (1 # 2) < 200
  ∧ 200 ≤ retryDelay scenarioRetry 2 (1 # 2) < 300.
Proof.
  split; [lia|]. split; [reflexivity|]. split; [reflexivity|].
  destruct (retryDelay_of_attempt scenarioRetry 3 ltac:(lia))
    as (Hrange & Honto & _ & _ & Hscenario).
  split; [exact (Hrange (1 # 2)%Q ltac:(done) ltac:(done))|].
  split; [exact (Honto 37 ltac:(lia))|].
  exact (Hscenario eq_refl eq_refl (1 # 2)%Q ltac:(done) ltac:(done)).
Defined.

(** The jitter of the samples one half and a quarter. *)
Example retryDelay_samples :
  retryDelay scenarioRetry 1 (1 # 2) = 150
  ∧ retryDelay scenarioRetry 2 (1 # 4) = 225
  ∧ retryDelay scenarioRetry 5 (1 # 4) = 825.
Proof. repeat split. Qed.

(** C9 (as amended). The realized delay never exceeds the maximal delay
    plus the jitter bound: it stays below [maxDelay + 100]. When the base
    delay is not negative, the exponential part is monotonically
    non-decreasing in the retry count, and the realized delay of a later
    retry falls short of that of an earlier one by less than the jitter
    bound. *)
Theorem retryDelay_bounded_expo_monotone (cfg : Merged.Retry) (k1 k2 : Z)
    (rnd1 rnd2 : Q) :
  (0 <= rnd1)%Q → (rnd1 < 1)%Q → (0 <= rnd2)%Q → (rnd2 < 1)%Q →
  retryDelay cfg k1 rnd1 < Merged.maxDelayMs cfg + 100
  ∧ (0 ≤ Merged.baseDelayMs cfg → 1 ≤ k1 → k1 ≤ k2 →
     expo cfg k1 ≤ expo cfg k2
     ∧ retryDelay cfg k1 rnd1 < retryDelay cfg k2 rnd2 + 100).
Proof.
  intros Hlo1 Hhi1 Hlo2 Hhi2.
  pose proof (jitter_range rnd1 Hlo1 Hhi1) as Hj1.
  pose proof (jitter_range rnd2 Hlo2 Hhi2) as Hj2.
  pose proof (expo_le_max cfg k1) as Hmax.
  rewrite !retryDelay_unfold. split; [lia|].
  intros Hbase Hk1 Hk12.
  pose proof (expo_monotone cfg k1 k2 Hbase Hk1 Hk12) as Hmono.
  split; lia.
Qed.

Lemma retryDelay_bounded_expo_monotone_witness :
  (0 <= 99 # 100)%Q ∧ (99 # 100 < 1)%Q ∧ (0 <= 0)%Q ∧ (0 < 1)%Q
  ∧ 0 ≤ Merged.baseDelayMs smallBase ∧ 1 ≤ 1 ∧ 1 ≤ 2
  ∧ retryDelay smallBase 1 (99 # 100) < Merged.maxDelayMs smallBase + 100
  ∧ expo smallBase 1 ≤ expo smallBase 2
  ∧ retryDelay smallBase 1 (99 # 100) < retryDelay smallBase 2 0 + 100.
Proof.
  destruct (retryDelay_bounded_expo_monotone smallBase 1 2 (99 # 100) 0)
    as (Hbound & Hmono); [done | done | done | done |].
  destruct Hmono as (Hexpo & Hdelay); [simpl; lia | lia | lia |].
  repeat split; try done; try (simpl; lia); assumption.
Defined.

(** C9, counterexample. With base delay 10 the first retry, drawing the
    sample 0.99, sleeps 109 ms and the second retry, drawing 0, sleeps 20
    ms: the realized delay decreases from one attempt to the next. *)
Lemma retryDelay_not_monotone :
  retryDelay smallBase 1 (99 # 100) = 109
  ∧ retryDelay smallBase 2 0 = 20
  ∧ retryDelay smallBase 2 0 < retryDelay smallBase 1 (99 # 100).
Proof. repeat split. Qed.

(** ** The breaker registry *)

(** C5. [getOrCreateBreaker] is idempotent per key: a call for a key
    returns the very breaker that the first call for that key returned,
    whatever options it is given and whatever calls lie in between, and
    over any sequence of calls on a new client at most one breaker is
    constructed for a key. *)
Theorem getOrCreateBreaker_idempotent :
  (∀ (calls : list (string * Merged.Options)) (key : string)
     (opts1 opts2 : Merged.Options) (this : HttpClient),
     let first := getOrCreateBreaker key opts1 this in
     let later := getOrCreateBreaker key opts2 (getOrCreateAll calls first.2) in
     later.1 = first.1 ∧ later.2 = getOrCreateAll calls first.2)
  ∧ (∀ (calls : list (string * Merged.Options)) (key : string),
       (length (constructedFor key (getOrCreateAll calls newHttpClient)) ≤ 1)%nat).
Proof.
  split.
  - intros calls key opts1 opts2 this first later. subst first later.
    pose proof (getOrCreateBreaker_registers key opts1 this) as Hreg.
    apply (getOrCreateAll_stable calls) in Hreg.
    by rewrite (getOrCreateBreaker_existing _ _ _ _ Hreg).
  - intros calls key.
    rewrite (registered_getOrCreateAll calls _ registered_new key).
    destruct (breakers _ !! key); lia.
Qed.

(** Two calls in a row on the new client, with different options. *)
Example getOrCreateBreaker_twice :
  let opts1 := mergeOptions decimal ∅ None in
  let opts2 := mergeOptions decimal scenarioEnv breakerOff in
  let first := getOrCreateBreaker "iam-service" opts1 newHttpClient in
  let second := getOrCreateBreaker "iam-service" opts2 first.2 in
  second.1 = first.1 ∧ constructed second.2 = [first.1]
  ∧ Opossum.instance first.1 = 0%nat.
Proof. repeat split. Qed.

(** C10. When the key already has a breaker, [getOrCreateBreaker]
    ignores its options argument: it returns the existing breaker and
    leaves the client, map included, as it was. A later [request] to
    that destination therefore leaves the client unchanged, whatever
    breaker options it supplies. *)
Theorem getOrCreateBreaker_ignores_options
    (Number : string → Z) (env : gmap string string)
    (newURL : string → option URL)
    (isNetworkOrIdempotentRequestError : AxiosError → bool)
    (transport : AxiosRequest → nat → Wire) (duration : nat → Z)
    (random : nat → Q)
    (rejects timerFires : Opossum.CircuitBreaker → bool)
    (existing : Opossum.CircuitBreaker) (this : HttpClient)
    (m : HttpMethod) (u : string) (payload : JsValue)
    (config : option Config.AxiosRequestConfig) :
  breakers this !! deriveServiceKey newURL u = Some existing →
  (∀ opts : Merged.Options,
     getOrCreateBreaker (deriveServiceKey newURL u) opts this
     = (existing, this))
  ∧ (∀ opts : option HttpClientOptions,
       snd <$> request Number env newURL isNetworkOrIdempotentRequestError
                       transport duration random rejects timerFires
                       m u payload config opts this
       = Some this).
Proof.
  intros Hin. split.
  - intros opts. by apply getOrCreateBreaker_existing.
  - intros opts.
    destruct (request_equation Number env newURL
                isNetworkOrIdempotentRequestError transport duration random
                rejects timerFires m u payload config opts this)
      as (res & _ & _ & ->).
    rewrite (getOrCreateBreaker_existing _ _ _ _ Hin). cbn [fst snd].
    destruct (Merged.enabled (Merged.breaker (mergeOptions Number env opts)));
      [destruct (rejects existing); [|destruct (expires timerFires existing)]|];
      done.
Qed.

Lemma getOrCreateBreaker_ignores_options_witness :
  breakers iamClient !! deriveServiceKey httpURL usersUrl = Some iamBreaker
  ∧ getOrCreateBreaker (deriveServiceKey httpURL usersUrl)
      (mergeOptions decimal scenarioEnv otherBreaker) iamClient
    = (iamBreaker, iamClient)
  ∧ snd <$> request decimal ∅ httpURL libraryPredicate (always okResponse)
                    instant half allClosed inTime GET usersUrl JNull None
                    otherBreaker iamClient
    = Some iamClient.
Proof.
  assert (breakers iamClient !! deriveServiceKey httpURL usersUrl
          = Some iamBreaker) as Hin by (vm_compute; reflexivity).
  split; [exact Hin|].
  destruct (getOrCreateBreaker_ignores_options decimal ∅ httpURL
              libraryPredicate (always okResponse) instant half allClosed
              inTime iamBreaker iamClient GET usersUrl JNull None Hin)
    as [Hsame Hframe].
  split; [apply Hsame | apply Hframe].
Defined.

(** ** Destination keys *)

(** C8. [deriveServiceKey] is a total function of the URL: a URL that
    [new URL] parses maps to its hostname, a URL that it rejects maps to
    ["default"], equal URLs map to equal keys, and URLs with distinct
    hostnames map to distinct keys. *)
Theorem deriveServiceKey_hostname (newURL : string → option URL) :
  (∀ (url : string) (u : URL),
     newURL url = Some u → deriveServiceKey newURL url = hostname u)
  ∧ (∀ url : string,
       newURL url = None → deriveServiceKey newURL url = "default")
  ∧ (∀ url1 url2 : string,
       url1 = url2 → deriveServiceKey newURL url1 = deriveServiceKey newURL url2)
  ∧ (∀ (url1 url2 : string) (u1 u2 : URL),
       newURL url1 = Some u1 → newURL url2 = Some u2 →
       hostname u1 ≠ hostname u2 →
       deriveServiceKey newURL url1 ≠ deriveServiceKey newURL url2).
Proof.
  unfold deriveServiceKey. repeat split.
  - intros url u Hparse. by rewrite Hparse.
  - intros url Hparse. by rewrite Hparse.
  - intros url1 url2 Heq. by rewrite Heq.
  - intros url1 url2 u1 u2 Hparse1 Hparse2 Hne. by rewrite Hparse1, Hparse2.
Qed.

Lemma deriveServiceKey_hostname_witness :
  httpURL usersUrl = Some {| hostname := "iam-service" |}
  ∧ httpURL "http://product-service:3002/products"
    = Some {| hostname := "product-service" |}
  ∧ httpURL "/users" = None
  ∧ "iam-service" ≠ "product-service"
  ∧ deriveServiceKey httpURL usersUrl = "iam-service"
  ∧ deriveServiceKey httpURL "/users" = "default"
  ∧ deriveServiceKey httpURL usersUrl = deriveServiceKey httpURL usersUrl
  ∧ deriveServiceKey httpURL usersUrl
    ≠ deriveServiceKey httpURL "http://product-service:3002/products".
Proof.
  destruct (deriveServiceKey_hostname httpURL)
    as (Hhost & Hdefault & Hsame & Hdistinct).
  split; [reflexivity|]. split; [reflexivity|]. split; [reflexivity|].
  split; [discriminate|].
  split; [exact (Hhost usersUrl {| hostname := "iam-service" |} eq_refl)|].
  split; [exact (Hdefault "/users" eq_refl)|].
  split; [exact (Hsame usersUrl usersUrl eq_refl)|].
  apply (Hdistinct usersUrl "http://product-service:3002/products"
           {| hostname := "iam-service" |}
           {| hostname := "product-service" |});
    [reflexivity | reflexivity | discriminate].
Defined.

(** ** Calls through the public API *)

(** The public methods are [request] at their method. *)
Lemma public_api (Number : string → Z) (env : gmap string string)
    (newURL : string → option URL) (P : AxiosError → bool)
    (transport : AxiosRequest → nat → Wire) (duration : nat → Z)
    (random : nat → Q) (rejects timerFires : Opossum.CircuitBreaker → bool)
    (u : string) (payload : JsValue)
    (config : option Config.AxiosRequestConfig)
    (opts : option HttpClientOptions) :
  let request :=
    request Number env newURL P transport duration random rejects timerFires in
  get Number env newURL P transport duration random rejects timerFires
      u config opts
  = request GET u JNull config opts
  ∧ post Number env newURL P transport duration random rejects timerFires
         u payload config opts
    = request POST u payload config opts
  ∧ put Number env newURL P transport duration random rejects timerFires
        u payload config opts
    = request PUT u payload config opts
  ∧ patch Number env newURL P transport duration random rejects timerFires
          u payload config opts
    = request PATCH u payload config opts
  ∧ delete Number env newURL P transport duration random rejects timerFires
           u config opts
    = request DELETE u JNull config opts.
Proof. repeat split. Qed.

(** The scenario of the specification, end to end: two 503 answers and
    then a 200, with base delay 100 and maximal delay 800. The call
    succeeds after three exchanges and two sleeps of 100 and 200 plus
    jitter. *)
Example scenario_two_retries :
  get decimal scenarioEnv httpURL libraryPredicate scenarioTransport instant
      half allClosed inTime usersUrl None breakerOff newHttpClient
  = Some ({| result := Resolved (JStr "ok");
             attempts := 3;
             sleeps := [100 + jitter (1 # 2); 200 + jitter (1 # 2)] |},
          newHttpClient).
Proof. vm_compute. reflexivity. Qed.

Section Calls.
Variable Number : string → Z.
Variable env : gmap string string.
Variable newURL : string → option URL.
Variable isNetworkOrIdempotentRequestError : AxiosError → bool.
Variable transport : AxiosRequest → nat → Wire.
Variable duration : nat → Z.
Variable random : nat → Q.
Variable rejects : Opossum.CircuitBreaker → bool.
Variable timerFires : Opossum.CircuitBreaker → bool.

Variable m : HttpMethod.
Variable u : string.
Variable payload : JsValue.
Variable callConfig : option Config.AxiosRequestConfig.
Variable opts : option HttpClientOptions.
Variable this : HttpClient.

Let request' :=
  request Number env newURL isNetworkOrIdempotentRequestError transport
          duration random rejects timerFires.
Let cfg := axiosRetryConfig Number env.
Let mergedOpts := mergeOptions Number env opts.
(** The configuration that reaches axios for this call. *)
Let req := axiosConfig m u payload callConfig (Merged.timeoutMs' mergedOpts).
(** The breaker of the call, when the breaker is enabled. *)
Let breaker :=
  (getOrCreateBreaker (deriveServiceKey newURL u) mergedOpts this).1.
Let enabled := Merged.enabled (Merged.breaker mergedOpts).

(** C3 (as amended). On a successful call the caller receives the
    [data] component of the response that the last exchange delivered;
    the status and the headers are not part of the result. *)
Theorem request_returns_data (c : Call JsValue) (this' : HttpClient)
    (v : JsValue) :
  request' m u payload callConfig opts this = Some (c, this') →
  result c = Resolved v →
  ∃ res : HttpResponse,
    settle req (transport req (pred (attempts c))) = Fulfilled res
    ∧ v = data res.
Proof.
  intros Hcall Hok.
  apply request_settles in Hcall as [-> | (res & Hres & [->| ->])];
    [discriminate | | discriminate].
  apply retryLoop_spec in Hres as (_ & _ & [t Hlast] & _).
  fold mergedOpts req in Hlast.
  cbn [result attempts thenMap] in Hok |- *. rewrite Hlast in Hok.
  destruct (settle (withTimeout req t) _) as [r|e] eqn:Hsettle;
    simpl in Hok; [|discriminate].
  apply settle_withTimeout_fulfilled in Hsettle.
  exists r. split; [done | congruence].
Qed.

(** C7 (as amended). When the configured retry count is an integer that
    is not negative and the caller's config carries no options for
    axios-retry, [maxAttempts] is at least 1 and the call returns after
    at most [maxAttempts] exchanges. A call that its breaker refuses
    performs none; every other call performs at least one. Unless the
    breaker refuses the call or its timer fires first, the caller
    receives the outcome of the last exchange performed: the [data] of
    its response, or the error that axios threw for it, which is the
    terminal error once the retries are used up. *)
Theorem attempts_bounded :
  integerSettings env →
  0 ≤ Merged.retries cfg →
  callConfig ≫= Config.axiosRetry = None →
  1 ≤ maxAttempts Number env
  ∧ ∃ (c : Call JsValue) (this' : HttpClient),
      request' m u payload callConfig opts this = Some (c, this')
      ∧ Z.of_nat (attempts c) ≤ maxAttempts Number env
      ∧ (enabled = true → rejects breaker = true →
         result c = Rejected BreakerOpen ∧ attempts c = O)
      ∧ (enabled = false ∨ rejects breaker = false → (1 ≤ attempts c)%nat)
      ∧ (enabled = true → rejects breaker = false →
         expires timerFires breaker = true →
         result c = Rejected BreakerTimeout)
      ∧ (enabled = false
         ∨ (rejects breaker = false ∧ expires timerFires breaker = false) →
         ∃ timeoutLeft : Z,
           result c
           = match settle (withTimeout req timeoutLeft)
                          (transport req (pred (attempts c))) with
             | Fulfilled res => Resolved (data res)
             | Thrown e => Rejected (AxiosFailure e)
             end).
Proof.
  intros _ Hretries Hown. unfold maxAttempts.
  unfold cfg in Hretries. cbn [Merged.retries axiosRetryConfig] in *.
  split; [lia|].
  destruct (request_equation Number env newURL
              isNetworkOrIdempotentRequestError transport duration random
              rejects timerFires m u payload callConfig opts this)
    as (res & Hres & Hone & Heq).
  fold mergedOpts req in Hres.
  apply retryLoop_spec in Hres as (_ & Hbound & [t Hlast] & _).
  assert (retriesOf Number env req
          = envNumber Number env "HTTP_RETRY_COUNT" 2) as Hcount.
  { unfold retriesOf, req. cbn [axiosRetry axiosConfig]. by rewrite Hown. }
  rewrite Hcount, Z.sub_0_r in Hbound.
  assert (∃ timeoutLeft : Z,
            result (thenMap data res)
            = match settle (withTimeout req timeoutLeft)
                           (transport req (pred (attempts res))) with
              | Fulfilled r => Resolved (data r)
              | Thrown e => Rejected (AxiosFailure e)
              end) as Hsurfaced.
  { exists t. cbn [result thenMap]. rewrite Hlast.
    by destruct (settle _ _). }
  fold mergedOpts in Heq. fold breaker in Heq. fold enabled in Heq.
  destruct enabled;
    [destruct (rejects breaker); [|destruct (expires timerFires breaker)]|];
    eexists _, _; (split; [exact Heq|]);
    cbn [attempts result thenMap timedOut];
    (split; [lia|]);
    repeat split; try done; try lia;
    try (intros [?|?]; (done || lia));
    try (intros [?|[? ?]]; done).
Qed.
End Calls.

Lemma request_returns_data_witness :
  request decimal ∅ httpURL libraryPredicate (always okResponse) instant half
          allClosed inTime GET usersUrl JNull None None newHttpClient
  = Some ({| result := Resolved (data okResponse);
             attempts := 1;
             sleeps := [] |}, iamClient)
  ∧ ∃ res : HttpResponse,
      settle (usersRequest GET) (always okResponse (usersRequest GET) 0%nat)
      = Fulfilled res
      ∧ data okResponse = data res.
Proof.
  assert (request decimal ∅ httpURL libraryPredicate (always okResponse)
                  instant half allClosed inTime GET usersUrl JNull None None
                  newHttpClient
          = Some ({| result := Resolved (data okResponse);
                     attempts := 1;
                     sleeps := [] |}, iamClient)) as Hcall
    by (vm_compute; reflexivity).
  split; [exact Hcall|].
  exact (request_returns_data decimal ∅ httpURL libraryPredicate
           (always okResponse) instant half allClosed inTime GET usersUrl
           JNull None None newHttpClient _ _ (data okResponse) Hcall eq_refl).
Defined.

(** C3, counterexample. A successful [get] hands the caller the [data]
    of the response, which is not the triple of status, data and
    headers. *)
Lemma get_returns_data_not_triple :
  fst <$> get decimal ∅ httpURL libraryPredicate (always okResponse) instant
              half allClosed inTime usersUrl None None newHttpClient
  = Some {| result := Resolved (JArr [JStr "alice"; JStr "bob"]);
            attempts := 1;
            sleeps := [] |}
  ∧ JArr [JStr "alice"; JStr "bob"] ≠ tripleOf okResponse.
Proof. split; [vm_compute; reflexivity | discriminate]. Qed.

Lemma integerSettings_empty : integerSettings ∅.
Proof. intros name s _ Hin. by rewrite lookup_empty in Hin. Qed.

Lemma attempts_bounded_witness :
  integerSettings ∅
  ∧ 0 ≤ Merged.retries (axiosRetryConfig decimal ∅)
  ∧ 1 ≤ maxAttempts decimal ∅
  ∧ ∃ (c : Call JsValue) (this' : HttpClient),
      request decimal ∅ httpURL libraryPredicate (always (respond 500 JNull))
              instant half allClosed inTime GET usersUrl JNull None breakerOff
              newHttpClient
      = Some (c, this')
      ∧ Z.of_nat (attempts c) ≤ maxAttempts decimal ∅
      ∧ (1 ≤ attempts c)%nat
      ∧ ∃ timeoutLeft : Z,
          result c
          = match settle (withTimeout (usersRequest GET) timeoutLeft)
                         (always (respond 500 JNull) (usersRequest GET)
                                 (pred (attempts c))) with
            | Fulfilled res => Resolved (data res)
            | Thrown e => Rejected (AxiosFailure e)
            end.
Proof.
  assert (0 ≤ Merged.retries (axiosRetryConfig decimal ∅)) as Hretries
    by (vm_compute; discriminate).
  split; [exact integerSettings_empty|]. split; [exact Hretries|].
  destruct (attempts_bounded decimal ∅ httpURL libraryPredicate
              (always (respond 500 JNull)) instant half allClosed inTime GET
              usersUrl JNull None breakerOff newHttpClient
              integerSettings_empty Hretries eq_refl)
    as (Hmax & c & this' & Hcall & Hbound & _ & Hone & _ & Hlast).
  split; [exact Hmax|]. exists c, this'.
  split; [exact Hcall|]. split; [exact Hbound|].
  split; [exact (Hone (or_introl eq_refl)) | exact (Hlast (or_introl eq_refl))].
Defined.

(** C7, counterexample. A process started with [HTTP_RETRY_COUNT=-1] has
    [maxAttempts] 0, which is below 1, and its calls still perform one
    exchange, which is more than [maxAttempts]. *)
Lemma negative_retry_count :
  maxAttempts decimal negativeRetriesEnv = 0
  ∧ fst <$> get decimal negativeRetriesEnv httpURL libraryPredicate
                (always (respond 500 JNull)) instant half allClosed inTime
                usersUrl None breakerOff newHttpClient
    = Some {| result := Rejected (AxiosFailure (error500 GET 6000));
              attempts := 1;
              sleeps := [] |}.
Proof. split; vm_compute; reflexivity. Qed.

(** A retry count that the caller's config sets for one request takes
    the place of the configured one: with five retries asked for, a GET
    answered with status 500 performs six exchanges, twice
    [maxAttempts]. *)
Example retries_of_the_request :
  maxAttempts decimal ∅ = 3
  ∧ (λ c, (attempts c, sleeps c))
    <$> (fst <$> get decimal ∅ httpURL libraryPredicate
                     (always (respond 500 JNull)) instant half allClosed
                     inTime usersUrl (Some (retrying 5)) breakerOff
                     newHttpClient)
    = Some (6%nat, [300; 550; 1050; 1550; 1550]).
Proof. split; vm_compute; reflexivity. Qed.

(** A call whose breaker timer fires first fails with the error of the
    breaker, whatever the exchange delivers. *)
Example breaker_timer_fires :
  fst <$> get decimal ∅ httpURL libraryPredicate (always okResponse) instant
              half allClosed (λ _, true) usersUrl None None newHttpClient
  = Some {| result := Rejected BreakerTimeout; attempts := 1; sleeps := [] |}.
Proof. vm_compute. reflexivity. Qed.

Section LibraryCalls.
Variable Number : string → Z.
Variable env : gmap string string.
Variable newURL : string → option URL.
Variable transport : AxiosRequest → nat → Wire.
Variable duration : nat → Z.
Variable random : nat → Q.
Variable rejects : Opossum.CircuitBreaker → bool.
Variable timerFires : Opossum.CircuitBreaker → bool.

Variable m : HttpMethod.
Variable u : string.
Variable payload : JsValue.
Variable callConfig : option Config.AxiosRequestConfig.
Variable opts : option HttpClientOptions.
Variable this : HttpClient.

Let request' :=
  request Number env newURL AxiosRetry.isNetworkOrIdempotentRequestError
          transport duration random rejects timerFires.
Let cfg := axiosRetryConfig Number env.
Let mergedOpts := mergeOptions Number env opts.
(** The configuration that reaches axios for this call. *)
Let req := axiosConfig m u payload callConfig (Merged.timeoutMs' mergedOpts).

(** C6 (as amended). With the breaker disabled, a retry count that is
    an integer and not negative, a caller's config that sets neither
    [method], [validateStatus] nor options for axios-retry, and a
    transport that answers every exchange with the same response of
    status 500, the call fails with the error of axios that carries this
    response, after one exchange at least and [maxAttempts] exchanges at
    most. It performs a single exchange when the method is not
    idempotent (POST, PATCH), since 500 is not a retryable status. When
    the method is idempotent (GET, PUT, DELETE), it performs
    [maxAttempts] exchanges if the time-out of the request lasts for all
    the retries (it is not set, or what the exchanges and the delays
    leave of it stays positive), and it stops after [k] retries if the
    time-out lasts for these and the delay of the next one would use it
    up. *)
Theorem status_500_attempts (r : HttpResponse) :
  integerSettings env →
  0 ≤ Merged.retries cfg →
  Merged.enabled (Merged.breaker mergedOpts) = false →
  callConfig ≫= Config.method = None →
  callConfig ≫= Config.validateStatus = None →
  callConfig ≫= Config.axiosRetry = None →
  status r = 500 →
  (∀ n, transport req n = Answered r) →
  ∃ (c : Call JsValue) (e : AxiosError),
    request' m u payload callConfig opts this = Some (c, this)
    ∧ result c = Rejected (AxiosFailure e)
    ∧ response e = Some r
    ∧ code e = Some "ERR_BAD_RESPONSE"
    ∧ (1 ≤ attempts c)%nat
    ∧ Z.of_nat (attempts c) ≤ maxAttempts Number env
    ∧ (idempotentMethod m = false → attempts c = 1%nat)
    ∧ (idempotentMethod m = true →
       timeoutLasts Number env duration random req
                    (Z.to_nat (Merged.retries cfg)) →
       Z.of_nat (attempts c) = maxAttempts Number env)
    ∧ (idempotentMethod m = true →
       ∀ k : nat,
         (k < Z.to_nat (Merged.retries cfg))%nat →
         timeout (fields req) ≠ 0 →
         (∀ i : nat, (i < k)%nat →
            0 < timeoutAfter Number env duration random 0 0
                             (timeout (fields req)) (S i)) →
         timeoutAfter Number env duration random 0 0
                      (timeout (fields req)) (S k) ≤ 0 →
         attempts c = S k).
Proof.
  intros _ Hretries Hoff Hmethod Hvalidate Hplain Hstatus Hanswer.
  set (error := λ t : Z, {| code := Some "ERR_BAD_RESPONSE";
                            response := Some r;
                            config := fields (withTimeout req t) |}).
  assert (axiosRetry req = None) as Hplain' by exact Hplain.
  assert (∀ n t, settle (withTimeout req t) (transport req n)
                 = Thrown (error t)) as Hthrow.
  { intros n t. rewrite Hanswer. unfold settle, error, req.
    cbn [validateStatus withTimeout axiosConfig].
    rewrite Hvalidate, Hstatus. reflexivity. }
  assert (∀ t, shouldRetry AxiosRetry.isNetworkOrIdempotentRequestError
                           (error t)
               = idempotentMethod m) as Haccept.
  { intros t. rewrite shouldRetry_unfold.
    rewrite (library_on_response (error t) r eq_refl) by discriminate.
    unfold error, req.
    cbn [response config fields withTimeout axiosConfig method].
    rewrite Hmethod. cbn [default].
    change (status <$> Some r) with (Some (status r)). rewrite Hstatus.
    by destruct m. }
  destruct (request_equation Number env newURL
              AxiosRetry.isNetworkOrIdempotentRequestError transport duration
              random rejects timerFires m u payload callConfig opts this)
    as (res & Hres & Hone & Heq).
  fold mergedOpts in Heq. rewrite Hoff in Heq.
  fold mergedOpts req in Hres.
  pose proof (retryLoop_spec _ _ _ _ _ _ _ _ _ _ _ _ _ Hres)
    as (_ & Hbound & _ & _).
  destruct (plain_options Number env
              AxiosRetry.isNetworkOrIdempotentRequestError random req Hplain')
    as (Hcount & _).
  rewrite Hcount, Z.sub_0_r in Hbound.
  pose proof (retryLoop_same_outcome _ _ _ _ _ _ _ error (idempotentMethod m)
                _ Hplain' Hthrow Haccept _ _ _ _ _ Hres)
    as ([t Hresult] & Hsingle & Hall).
  exists (thenMap data res), (error t).
  split; [exact Heq|]. cbn [result attempts thenMap]. rewrite Hresult.
  split; [done|]. split; [done|]. split; [done|]. split; [exact Hone|].
  unfold maxAttempts, cfg in *.
  cbn [Merged.retries axiosRetryConfig] in *.
  split; [lia|]. split; [exact Hsingle|]. split.
  - intros Hidem Hlasts. rewrite Z.sub_0_r in Hall.
    rewrite (Hall Hidem Hlasts). lia.
  - intros Hidem k Hk Htimeout Hlasts Hused.
    rewrite Hidem in Haccept.
    apply (retryLoop_timeout_used_up _ _ _ _ _ _ _ error _ Hplain' Hthrow
             Haccept k _ _ _ _ _ Hres);
      [by rewrite Z.sub_0_r | done | done | done].
Qed.
End LibraryCalls.

Lemma status_500_attempts_witness :
  integerSettings ∅
  ∧ 0 ≤ Merged.retries (axiosRetryConfig decimal ∅)
  ∧ Merged.enabled (Merged.breaker (mergeOptions decimal ∅ breakerOff)) = false
  ∧ status (respond 500 JNull) = 500
  ∧ (∀ n, always (respond 500 JNull) (usersRequest GET) n
          = Answered (respond 500 JNull))
  ∧ idempotentMethod GET = true
  ∧ timeoutLasts decimal ∅ instant half (usersRequest GET)
                 (Z.to_nat (Merged.retries (axiosRetryConfig decimal ∅)))
  ∧ ∃ (c : Call JsValue) (e : AxiosError),
      request decimal ∅ httpURL libraryPredicate (always (respond 500 JNull))
              instant half allClosed inTime GET usersUrl JNull None breakerOff
              newHttpClient
      = Some (c, newHttpClient)
      ∧ result c = Rejected (AxiosFailure e)
      ∧ response e = Some (respond 500 JNull)
      ∧ Z.of_nat (attempts c) = maxAttempts decimal ∅.
Proof.
  assert (0 ≤ Merged.retries (axiosRetryConfig decimal ∅)) as Hretries
    by (vm_compute; discriminate).
  assert (timeoutLasts decimal ∅ instant half (usersRequest GET)
                       (Z.to_nat (Merged.retries (axiosRetryConfig decimal ∅))))
    as Hlasts.
  { right. intros [|[|i]] Hi; [vm_compute; reflexivity .. |].
    exfalso. vm_compute in Hi. lia. }
  split; [exact integerSettings_empty|]. split; [exact Hretries|].
  split; [reflexivity|].
  split; [reflexivity|]. split; [intros n; reflexivity|].
  split; [reflexivity|]. split; [exact Hlasts|].
  destruct (status_500_attempts decimal ∅ httpURL
              (always (respond 500 JNull)) instant half allClosed inTime GET
              usersUrl JNull None breakerOff newHttpClient (respond 500 JNull)
              integerSettings_empty Hretries eq_refl eq_refl eq_refl eq_refl
              eq_refl (λ n, eq_refl))
    as (c & e & Hcall & Hresult & Hresponse & _ & _ & _ & _ & Hall & _).
  exists c, e. split; [exact Hcall|]. split; [exact Hresult|].
  split; [exact Hresponse|]. exact (Hall eq_refl Hlasts).
Defined.

(** C6, counterexample. With the breaker disabled and the default two
    retries, so that [maxAttempts] is 3, a POST answered with status 500
    performs a single exchange before it fails. *)
Lemma post_500_single_attempt :
  maxAttempts decimal ∅ = 3
  ∧ fst <$> post decimal ∅ httpURL libraryPredicate
                 (always (respond 500 JNull)) instant half allClosed inTime
                 usersUrl JNull None breakerOff newHttpClient
    = Some {| result := Rejected (AxiosFailure (error500 POST 6000));
              attempts := 1;
              sleeps := [] |}.
Proof. split; [reflexivity | vm_compute; reflexivity]. Qed.

(** The same call as a GET exhausts the three attempts; the error it
    fails with carries what the two delays have left of the time-out. *)
Example get_500_three_attempts :
  fst <$> get decimal ∅ httpURL libraryPredicate (always (respond 500 JNull))
              instant half allClosed inTime usersUrl None breakerOff
              newHttpClient
  = Some {| result := Rejected (AxiosFailure (error500 GET 5150));
            attempts := 3;
            sleeps := [300; 550] |}.
Proof. vm_compute. reflexivity. Qed.

(** With a time-out of 200 ms the first delay of 300 ms uses up the
    time-out, and the GET is given up after one exchange. With ten
    retries configured and the default time-out of six seconds, the
    sixth delay uses it up, and the GET is given up after six
    exchanges. *)
Example get_500_timeout_used_up :
  fst <$> get decimal ∅ httpURL libraryPredicate (always (respond 500 JNull))
              instant half allClosed inTime usersUrl None
              (breakerOffWithin 200) newHttpClient
  = Some {| result := Rejected (AxiosFailure (error500 GET 200));
            attempts := 1;
            sleeps := [] |}
  ∧ maxAttempts decimal tenRetriesEnv = 11
  ∧ fst <$> get decimal tenRetriesEnv httpURL libraryPredicate
                (always (respond 500 JNull)) instant half allClosed inTime
                usersUrl None breakerOff newHttpClient
    = Some {| result := Rejected (AxiosFailure (error500 GET 1000));
              attempts := 6;
              sleeps := [300; 550; 1050; 1550; 1550] |}.
Proof. repeat split; vm_compute; reflexivity. Qed.

(** * Further properties of the client *)

(** ** The registry over its lifetime *)

(** X1. In every state that calls of [getOrCreateBreaker] reach from a
    new client, the registry is well formed, and two registered breakers
    are the same object exactly when they are filed under the same key:
    distinct destinations never share a breaker and one destination
    never has two. *)
Theorem registry_one_breaker_per_key
    (calls : list (string * Merged.Options)) (key1 key2 : string)
    (b1 b2 : Opossum.CircuitBreaker) :
  let this := getOrCreateAll calls newHttpClient in
  breakers this !! key1 = Some b1 →
  breakers this !! key2 = Some b2 →
  wellFormed this
  ∧ Opossum.name b1 = key1
  ∧ (Opossum.instance b1 = Opossum.instance b2 ↔ key1 = key2)
  ∧ (b1 = b2 ↔ key1 = key2).
Proof.
  intros this Hin1 Hin2.
  assert (wellFormed this) as Hwf
    by apply wellFormed_getOrCreateAll, wellFormed_new.
  destruct Hwf as [Hmap Hlog].
  destruct (Hmap key1 b1 Hin1) as [Hname1 Hpos1].
  destruct (Hmap key2 b2 Hin2) as [Hname2 Hpos2].
  split; [by split|]. split; [done|].
  assert (Opossum.instance b1 = Opossum.instance b2 → key1 = key2) as Hid.
  { intros Heq. rewrite Heq in Hpos1. congruence. }
  assert (key1 = key2 → b1 = b2) as Hkey by (intros ->; congruence).
  split; split; intros H; auto.
  - by rewrite (Hkey H).
  - apply Hid. by rewrite H.
Qed.

Lemma registry_one_breaker_per_key_witness :
  breakers (getOrCreateAll [("iam-service", mergeOptions decimal ∅ None);
                            ("product-service", mergeOptions decimal ∅ None)]
                           newHttpClient) !! "iam-service"
  = Some iamBreaker
  ∧ breakers (getOrCreateAll
                [("iam-service", mergeOptions decimal ∅ None);
                 ("product-service", mergeOptions decimal ∅ None)]
                newHttpClient) !! "product-service"
    = Some (getOrCreateBreaker "product-service"
              (mergeOptions decimal ∅ None) iamClient).1
  ∧ Opossum.name iamBreaker = "iam-service"
  ∧ (Opossum.instance iamBreaker
     = Opossum.instance (getOrCreateBreaker "product-service"
                           (mergeOptions decimal ∅ None) iamClient).1
     ↔ "iam-service" = "product-service").
Proof.
  assert (breakers (getOrCreateAll
                      [("iam-service", mergeOptions decimal ∅ None);
                       ("product-service", mergeOptions decimal ∅ None)]
                      newHttpClient) !! "iam-service"
          = Some iamBreaker) as Hin1 by (vm_compute; reflexivity).
  assert (breakers (getOrCreateAll
                      [("iam-service", mergeOptions decimal ∅ None);
                       ("product-service", mergeOptions decimal ∅ None)]
                      newHttpClient) !! "product-service"
          = Some (getOrCreateBreaker "product-service"
                    (mergeOptions decimal ∅ None) iamClient).1) as Hin2
    by (vm_compute; reflexivity).
  split; [exact Hin1|]. split; [exact Hin2|].
  destruct (registry_one_breaker_per_key
              [("iam-service", mergeOptions decimal ∅ None);
               ("product-service", mergeOptions decimal ∅ None)]
              "iam-service" "product-service" iamBreaker _ Hin1 Hin2)
    as (_ & Hname & Hid & _).
  split; [exact Hname | exact Hid].
Defined.

(** X2. The first call for a key decides the configuration of its
    breaker for good: after any sequence of calls on a new client, the
    breaker of a key carries the breaker options of the first call that
    named the key, whatever later calls supplied. *)
Theorem first_call_configures
    (before after : list (string * Merged.Options)) (key : string)
    (opts : Merged.Options) :
  key ∉ before.*1 →
  ∃ b : Opossum.CircuitBreaker,
    breakers (getOrCreateAll (before ++ (key, opts) :: after) newHttpClient)
      !! key = Some b
    ∧ Opossum.name b = key
    ∧ Opossum.timeout b = Merged.timeoutMs (Merged.breaker opts)
    ∧ Opossum.errorThresholdPercentage b
      = Merged.errorThresholdPercentage (Merged.breaker opts)
    ∧ Opossum.resetTimeout b = Merged.resetTimeoutMs (Merged.breaker opts)
    ∧ Opossum.rollingCountTimeout b
      = Merged.rollingCountTimeoutMs (Merged.breaker opts)
    ∧ Opossum.rollingCountBuckets b
      = Merged.rollingCountBuckets (Merged.breaker opts).
Proof.
  intros Hfresh.
  pose proof (getOrCreateAll_other before key newHttpClient Hfresh) as Hfree.
  simpl in Hfree. rewrite lookup_empty in Hfree.
  set (this := getOrCreateAll before newHttpClient) in *.
  exists (getOrCreateBreaker key opts this).1.
  split.
  - rewrite getOrCreateAll_app. simpl. fold this.
    apply getOrCreateAll_stable, getOrCreateBreaker_registers.
  - unfold getOrCreateBreaker. rewrite Hfree. simpl. repeat split.
Qed.

Lemma first_call_configures_witness :
  ("iam-service"
   ∉ (fst <$> [("product-service", mergeOptions decimal ∅ None)]))
  ∧ ∃ b : Opossum.CircuitBreaker,
      breakers (getOrCreateAll
                  ([("product-service", mergeOptions decimal ∅ None)]
                   ++ (("iam-service", mergeOptions decimal ∅ None)
                       :: [("iam-service", mergeOptions decimal ∅ otherBreaker)]))
                  newHttpClient) !! "iam-service" = Some b
      ∧ Opossum.name b = "iam-service"
      ∧ Opossum.timeout b = 3500.
Proof.
  assert ("iam-service"
          ∉ (fst <$> [("product-service", mergeOptions decimal ∅ None)]))
    as Hfresh.
  { simpl. intros Hin. apply list_elem_of_singleton in Hin. discriminate. }
  split; [exact Hfresh|].
  destruct (first_call_configures
              [("product-service", mergeOptions decimal ∅ None)]
              [("iam-service", mergeOptions decimal ∅ otherBreaker)]
              "iam-service" (mergeOptions decimal ∅ None) Hfresh)
    as (b & Hin & Hname & Htimeout & _).
  exists b. split; [exact Hin|]. split; [exact Hname | exact Htimeout].
Defined.

(** X3. Every URL that [new URL] rejects, and every URL whose hostname
    is ["default"], is served by one and the same breaker: the call for
    the second URL obtains the breaker that the call for the first one
    obtained, and constructs none. *)
Theorem default_key_shared (newURL : string → option URL)
    (url1 url2 : string) (opts1 opts2 : Merged.Options) (this : HttpClient) :
  (newURL url1 = None ∨ hostname <$> newURL url1 = Some "default") →
  (newURL url2 = None ∨ hostname <$> newURL url2 = Some "default") →
  let first := getOrCreateBreaker (deriveServiceKey newURL url1) opts1 this in
  let second :=
    getOrCreateBreaker (deriveServiceKey newURL url2) opts2 first.2 in
  deriveServiceKey newURL url1 = deriveServiceKey newURL url2
  ∧ second.1 = first.1
  ∧ second.2 = first.2.
Proof.
  intros H1 H2.
  assert (∀ url, (newURL url = None ∨ hostname <$> newURL url = Some "default")
                 → deriveServiceKey newURL url = "default") as Hkey.
  { intros url [Hnone|Hdefault]; unfold deriveServiceKey.
    - by rewrite Hnone.
    - destruct (newURL url) as [parsed|]; [|done]. simpl in Hdefault.
      congruence. }
  cbv zeta. rewrite (Hkey url1 H1), (Hkey url2 H2). split; [done|].
  by rewrite (getOrCreateBreaker_existing _ _ _ _
                (getOrCreateBreaker_registers "default" opts1 this)).
Qed.

Lemma default_key_shared_witness :
  (httpURL "/users" = None
   ∨ hostname <$> httpURL "/users" = Some "default")
  ∧ (httpURL "http://default/products" = None
     ∨ hostname <$> httpURL "http://default/products" = Some "default")
  ∧ deriveServiceKey httpURL "/users"
    = deriveServiceKey httpURL "http://default/products"
  ∧ (getOrCreateBreaker (deriveServiceKey httpURL "http://default/products")
       (mergeOptions decimal ∅ otherBreaker)
       (getOrCreateBreaker (deriveServiceKey httpURL "/users")
          (mergeOptions decimal ∅ None) newHttpClient).2).1
    = (getOrCreateBreaker (deriveServiceKey httpURL "/users")
         (mergeOptions decimal ∅ None) newHttpClient).1.
Proof.
  assert (httpURL "/users" = None
          ∨ hostname <$> httpURL "/users" = Some "default") as H1
    by (left; reflexivity).
  assert (httpURL "http://default/products" = None
          ∨ hostname <$> httpURL "http://default/products" = Some "default")
    as H2 by (right; reflexivity).
  split; [exact H1|]. split; [exact H2|].
  destruct (default_key_shared httpURL "/users" "http://default/products"
              (mergeOptions decimal ∅ None)
              (mergeOptions decimal ∅ otherBreaker) newHttpClient H1 H2)
    as (Hkey & Hsame & _).
  split; [exact Hkey | exact Hsame].
Defined.

(** ** Calls, exchanges and sleeps *)

Lemma sum_snoc (l : list Z) (d : Z) :
  foldr Z.add 0 (l ++ [d]) = foldr Z.add 0 l + d.
Proof. induction l as [|x l IH]; simpl; lia. Qed.

(** Unless [shouldResetTimeout] is set, the delays that a request with
    a positive time-out sleeps add up to less than the time-out. *)
Lemma retryLoop_sleeps_within (Number : string → Z)
    (env : gmap string string) (P : AxiosError → bool)
    (transport : AxiosRequest → nat → Wire) (duration : nat → Z)
    (random : nat → Q) (req : AxiosRequest) (fuel : nat) :
  shouldResetTimeoutOf req = false →
  (∀ n, 0 ≤ duration n) →
  ∀ (retryCount : Z) (sent : nat) (slept : list Z) (timeoutLeft : Z)
    (c : Call HttpResponse),
    0 < timeoutLeft →
    retryLoop Number env P transport duration random req fuel retryCount
              sent slept timeoutLeft = Some c →
    foldr Z.add 0 (sleeps c) < foldr Z.add 0 slept + timeoutLeft.
Proof.
  intros Hreset Hduration.
  induction fuel as [|fuel IH]; intros retryCount sent slept t c Ht Hrun;
    [discriminate|].
  simpl in Hrun. rewrite Hreset in Hrun.
  destruct (settle _ (transport req sent)) as [res|error];
    [injection Hrun as <-; simpl; lia|].
  destruct (_ && retryConditionOf _ _ error);
    [|injection Hrun as <-; simpl; lia].
  replace (t =? 0) with false in Hrun by (symmetry; apply Z.eqb_neq; lia).
  simpl in Hrun.
  destruct (_ <=? 0) eqn:Hleft; [injection Hrun as <-; simpl; lia|].
  apply Z.leb_gt in Hleft.
  apply IH in Hrun; [|exact Hleft].
  rewrite sum_snoc in Hrun. specialize (Hduration sent). lia.
Qed.

Section MoreCalls.
Variable Number : string → Z.
Variable env : gmap string string.
Variable newURL : string → option URL.
Variable isNetworkOrIdempotentRequestError : AxiosError → bool.
Variable transport : AxiosRequest → nat → Wire.
Variable duration : nat → Z.
Variable random : nat → Q.
Variable rejects : Opossum.CircuitBreaker → bool.
Variable timerFires : Opossum.CircuitBreaker → bool.

Variable m : HttpMethod.
Variable u : string.
Variable payload : JsValue.
Variable callConfig : option Config.AxiosRequestConfig.
Variable opts : option HttpClientOptions.
Variable this : HttpClient.

Let request' :=
  request Number env newURL isNetworkOrIdempotentRequestError transport
          duration random rejects timerFires.
Let axiosRequest' :=
  axiosRequest Number env isNetworkOrIdempotentRequestError transport
               duration random.
Let retryable := shouldRetry isNetworkOrIdempotentRequestError.
Let conditionOf := retryConditionOf isNetworkOrIdempotentRequestError.
Let delayOf := retryDelayOf Number env random.
Let cfg := axiosRetryConfig Number env.
Let mergedOpts := mergeOptions Number env opts.
Let req := axiosConfig m u payload callConfig (Merged.timeoutMs' mergedOpts).
Let key := deriveServiceKey newURL u.
(** The breaker of the call and the client it leaves. *)
Let reg := getOrCreateBreaker key mergedOpts this.
Let enabled := Merged.enabled (Merged.breaker mergedOpts).

Local Ltac flat :=
  unfold cfg in *;
  cbn [Merged.retries Merged.baseDelayMs Merged.maxDelayMs
       axiosRetryConfig] in *.

(** X4. A call performs no exchange exactly when its breaker refused
    it, which happens exactly when the breaker is enabled and open; a
    refused call has slept nothing, and every other call performs at
    least one exchange. *)
Theorem refused_iff_no_exchange (c : Call JsValue) (this' : HttpClient) :
  request' m u payload callConfig opts this = Some (c, this') →
  (result c = Rejected BreakerOpen ↔ enabled = true ∧ rejects reg.1 = true)
  ∧ (attempts c = O ↔ result c = Rejected BreakerOpen)
  ∧ (result c = Rejected BreakerOpen → sleeps c = []).
Proof.
  intros Hcall.
  destruct (request_equation Number env newURL
              isNetworkOrIdempotentRequestError transport duration random
              rejects timerFires m u payload callConfig opts this)
    as (res & Hres & Hone & Heq).
  unfold request' in Hcall. rewrite Heq in Hcall.
  apply retryLoop_spec in Hres as (_ & _ & [t Hlast] & _).
  assert (result (thenMap data res) ≠ Rejected BreakerOpen) as Hnot.
  { simpl. rewrite Hlast. by destruct (settle _ _). }
  fold mergedOpts key reg enabled in Hcall.
  destruct enabled;
    [destruct (rejects reg.1); [|destruct (expires timerFires reg.1)]|];
    injection Hcall as <- <-; cbn [result attempts sleeps thenMap timedOut] in *.
  - repeat split; by auto.
  - repeat split; try (intros; exfalso; (by apply Hnot) || lia || tauto);
      try discriminate.
    all: intros []; discriminate.
  - repeat split; try (intros; exfalso; (by apply Hnot) || lia || tauto).
    all: intros []; discriminate.
  - repeat split; try (intros; exfalso; (by apply Hnot) || lia || tauto).
    all: intros []; discriminate.
Qed.

(** X5. Each retry is preceded by exactly one sleep: a call that
    performed [n] exchanges has slept [n - 1] times, and a call without
    exchange has not slept. *)
Theorem one_sleep_per_retry (c : Call JsValue) (this' : HttpClient) :
  request' m u payload callConfig opts this = Some (c, this') →
  length (sleeps c) = (attempts c - 1)%nat.
Proof.
  intros Hcall.
  apply request_settles in Hcall as [-> | (res & Hres & [->| ->])]; [done| |];
    apply retryLoop_spec in Hres as (_ & _ & _ & Hsleeps);
    cbn [sleeps attempts thenMap timedOut]; rewrite Hsleeps; simpl; lia.
Qed.

(** X6. For a call whose config carries no options for axios-retry:
    every exchange before the last one threw an error that [shouldRetry]
    accepts. A call that fails with an error of axios fails with one
    that [shouldRetry] refuses, or after more exchanges than there are
    retries, or because the delay before the next retry would use up what
    is left of the time-out of the request. *)
Theorem failures_before_last_retryable (c : Call JsValue)
    (this' : HttpClient) :
  integerSettings env →
  callConfig ≫= Config.axiosRetry = None →
  request' m u payload callConfig opts this = Some (c, this') →
  (∀ i : nat, (i < pred (attempts c))%nat →
     ∃ t e, settle (withTimeout req t) (transport req i) = Thrown e
            ∧ retryable e = true)
  ∧ (∀ e, result c = Rejected (AxiosFailure e) →
       retryable e = false
       ∨ Merged.retries cfg < Z.of_nat (attempts c)
       ∨ (timeout (config e) ≠ 0
          ∧ timeout (config e) - duration (pred (attempts c))
            - retryDelay cfg (Z.of_nat (attempts c))
                         (random (pred (attempts c)))
            ≤ 0)).
Proof.
  intros _ Hplain Hcall.
  apply request_settles in Hcall as [-> | (res & Hres & Hc)].
  { split; [intros i Hi; simpl in Hi; lia | intros e He; discriminate]. }
  pose proof (retryLoop_spec _ _ _ _ _ _ _ _ _ _ _ _ _ Hres) as (Hlo & _).
  apply retryLoop_trace in Hres as [Hbefore Hend].
  fold mergedOpts req in Hbefore, Hend, Hlo.
  assert (axiosRetry req = None) as Hplain' by exact Hplain.
  destruct (plain_options Number env isNetworkOrIdempotentRequestError
              random req Hplain') as (Hretries & Hcond & Hdelay & _).
  assert (attempts c = attempts res) as Hsame by (by destruct Hc as [->| ->]).
  rewrite Hsame. split.
  - intros i Hi.
    destruct (Hbefore i ltac:(lia)) as (t & e & Hsettle & Haccept).
    exists t, e. split; [exact Hsettle|]. by rewrite <- Hcond.
  - intros e He.
    assert (result res = Rejected (AxiosFailure e)) as He'.
    { destruct Hc as [->| ->]; cbn [result thenMap timedOut] in He;
        [|discriminate].
      destruct (result res); [discriminate He | by injection He as ->]. }
    destruct (Hend e He') as [Hno|[Hout|(_ & Hset & Hused)]].
    + left. by rewrite <- Hcond.
    + right; left. rewrite Hretries in Hout. flat. lia.
    + right; right. split; [exact Hset|]. rewrite Hdelay in Hused.
      replace (Z.of_nat (attempts res))
        with (0 + Z.of_nat (attempts res - 1) + 1) by lia.
      exact Hused.
Qed.

(** X7. The first fulfilled exchange wins. When no breaker stops the
    call, the caller's config carries no options for axios-retry,
    exchange number [k] (from 0) is answered with an accepted status, all
    exchanges before it threw errors that [shouldRetry] accepts, [k] does
    not exceed the retry count and the time-out of the request lasts for
    [k] retries, the call resolves with the data of that response after
    [k + 1] exchanges and [k] sleeps. *)
Theorem first_success_wins (r : HttpResponse) (k : nat) :
  integerSettings env →
  enabled = false
  ∨ (rejects reg.1 = false ∧ expires timerFires reg.1 = false) →
  callConfig ≫= Config.axiosRetry = None →
  (∀ (i : nat) (t : Z), (i < k)%nat →
     ∃ e, settle (withTimeout req t) (transport req i) = Thrown e
          ∧ retryable e = true) →
  settle req (transport req k) = Fulfilled r →
  Z.of_nat k ≤ Merged.retries cfg →
  timeoutLasts Number env duration random req k →
  ∃ (c : Call JsValue) (this' : HttpClient),
    request' m u payload callConfig opts this = Some (c, this')
    ∧ result c = Resolved (data r)
    ∧ attempts c = S k
    ∧ length (sleeps c) = k.
Proof.
  intros _ Hpass Hplain Hbefore Hok Hcount Hlasts.
  destruct (request_passes Number env newURL
              isNetworkOrIdempotentRequestError transport duration random
              rejects timerFires m u payload callConfig opts this Hpass)
    as (res & Hres & Hcall).
  fold mergedOpts req in Hres.
  assert (axiosRetry req = None) as Hplain' by exact Hplain.
  destruct (plain_options Number env isNetworkOrIdempotentRequestError
              random req Hplain') as (Hretries & _).
  unfold cfg in Hcount.
  destruct (retryLoop_first_success Number env
              isNetworkOrIdempotentRequestError transport duration random
              req r k Hplain'
              (S (Z.to_nat (retriesOf Number env req))) 0 0%nat []
              (timeout (fields req)))
    as (c & Hrun & Hresult & Hattempts);
    [rewrite Hretries; lia | done | done | lia | exact Hlasts |].
  assert (res = c) as -> by (unfold axiosRequest in Hres; congruence).
  eexists _, _. split; [exact Hcall|].
  cbn [result attempts sleeps thenMap]. rewrite Hresult.
  split; [done|]. split; [done|].
  apply retryLoop_spec in Hrun as (_ & _ & _ & ->). simpl. lia.
Qed.

(** X8. When the caller's config carries no options for axios-retry and
    every sample of [Math.random()] lies in [0, 1), every delay a call
    sleeps is below the maximal delay plus 100 ms and, for a base delay
    between 0 and the maximal delay, at least the base delay; with a
    maximal delay that is not negative, the time slept in total is at
    most the retry count times the maximal delay plus 99 ms; and when the
    request has a positive time-out, the time slept in total stays below
    that time-out. *)
Theorem sleeps_bounded (c : Call JsValue) (this' : HttpClient) :
  integerSettings env →
  (∀ n : nat, (0 <= random n)%Q ∧ (random n < 1)%Q) →
  callConfig ≫= Config.axiosRetry = None →
  request' m u payload callConfig opts this = Some (c, this') →
  Forall (λ d, d < Merged.maxDelayMs cfg + 100
               ∧ (0 ≤ Merged.baseDelayMs cfg →
                  Merged.baseDelayMs cfg ≤ Merged.maxDelayMs cfg →
                  Merged.baseDelayMs cfg ≤ d))
         (sleeps c)
  ∧ (0 ≤ Merged.maxDelayMs cfg →
     totalSleep c
     ≤ Z.max 0 (Merged.retries cfg) * (Merged.maxDelayMs cfg + 99))
  ∧ ((∀ n : nat, 0 ≤ duration n) → 0 < timeout (fields req) →
     totalSleep c < timeout (fields req)).
Proof.
  intros _ Hrandom Hplain Hcall.
  apply request_settles in Hcall as [-> | (res & Hres & Hc)].
  { split; [by apply Forall_nil|]. unfold totalSleep. cbn [sleeps foldr].
    split; [intros Hmax; apply Z.mul_nonneg_nonneg; lia | by intros _ ?]. }
  fold mergedOpts req in Hres.
  assert (axiosRetry req = None) as Hplain' by exact Hplain.
  destruct (plain_options Number env isNetworkOrIdempotentRequestError
              random req Hplain') as (Hretries & _ & _ & Hreset).
  assert (sleeps c = sleeps res) as Hsame by (by destruct Hc as [->| ->]).
  unfold totalSleep. rewrite Hsame. clear Hsame Hc.
  pose proof (retryLoop_spec _ _ _ _ _ _ _ _ _ _ _ _ _ Hres)
    as (Hlo & Hhi & _ & _).
  pose proof (λ Hd Ht, retryLoop_sleeps_within _ _ _ _ _ _ _ _ Hreset Hd
                         _ _ _ _ _ Ht Hres) as Hwithin.
  cbn [foldr] in Hwithin.
  apply retryLoop_sleeps in Hres; [|by rewrite Hplain'].
  rewrite Hres in Hwithin |- *. simpl. simpl in Hwithin. clear Hres.
  rewrite Hretries, Z.sub_0_r in Hhi.
  set (delays := (λ k : nat, _) <$> _) in *.
  assert (Forall (λ d, d < Merged.maxDelayMs cfg + 100
                       ∧ (0 ≤ Merged.baseDelayMs cfg →
                          Merged.baseDelayMs cfg ≤ Merged.maxDelayMs cfg →
                          Merged.baseDelayMs cfg ≤ d)) delays) as Hall.
  { apply Forall_fmap, Forall_forall. intros k _. simpl.
    destruct (Hrandom k) as [Hr0 Hr1].
    pose proof (jitter_range _ Hr0 Hr1) as Hj.
    pose proof (expo_le_max cfg (0 + 1 + Z.of_nat k)) as Hcap.
    rewrite retryDelay_unfold. split; [flat; lia|].
    intros Hbase Hmax.
    pose proof (expo_at_least_base cfg (0 + 1 + Z.of_nat k) Hbase Hmax) as Hge.
    flat. lia. }
  split; [exact Hall|]. split; [|exact Hwithin]. intros Hmax.
  assert (Forall (λ d, d ≤ Merged.maxDelayMs cfg + 99) delays) as Hle.
  { eapply Forall_impl; [exact Hall|]. cbn beta. intros d [Hd _]. lia. }
  apply foldr_add_bounded in Hle.
  assert (length delays = (attempts res - 1)%nat) as Hlen
    by (unfold delays; by rewrite length_fmap, length_seq).
  rewrite Hlen in Hle. clear Hall Hwithin. flat. nia.
Qed.

(** X9. A destination that keeps answering with one of the statuses
    429, 502, 503 and 504 uses up the attempts of a call, whatever the
    method and whatever axios-retry's predicate says. When no breaker
    stops the call, the caller's config sets neither [validateStatus] nor
    options for axios-retry, the retry count is an integer that is not
    negative and the time-out of the request lasts for all the retries,
    the call performs the initial exchange and all configured retries,
    and fails with the error that carries the response. *)
Theorem retryable_status_exhausts (r : HttpResponse) :
  integerSettings env →
  enabled = false
  ∨ (rejects reg.1 = false ∧ expires timerFires reg.1 = false) →
  callConfig ≫= Config.validateStatus = None →
  callConfig ≫= Config.axiosRetry = None →
  status r ∈ [429; 502; 503; 504] →
  (∀ n, transport req n = Answered r) →
  0 ≤ Merged.retries cfg →
  timeoutLasts Number env duration random req
               (Z.to_nat (Merged.retries cfg)) →
  ∃ (c : Call JsValue) (this' : HttpClient) (e : AxiosError),
    request' m u payload callConfig opts this = Some (c, this')
    ∧ result c = Rejected (AxiosFailure e)
    ∧ response e = Some r
    ∧ Z.of_nat (attempts c) = maxAttempts Number env.
Proof.
  intros _ Hpass Hvalidate Hplain Hstatus Hanswer Hretries Hlasts.
  destruct (request_passes Number env newURL
              isNetworkOrIdempotentRequestError transport duration random
              rejects timerFires m u payload callConfig opts this Hpass)
    as (res & Hres & Hcall).
  fold mergedOpts req in Hres.
  assert (axiosRetry req = None) as Hplain' by exact Hplain.
  set (error := λ t : Z, {| code := statusErrorCode (status r);
                            response := Some r;
                            config := fields (withTimeout req t) |}).
  assert ((status r =? 0) || defaultValidateStatus (status r) = false)
    as Hinvalid.
  { rewrite !elem_of_cons, elem_of_nil in Hstatus.
    destruct Hstatus as [->|[->|[->|[->|[]]]]]; reflexivity. }
  assert (∀ n t, settle (withTimeout req t) (transport req n)
                 = Thrown (error t)) as Hthrow.
  { intros n t. rewrite Hanswer. unfold settle, error, req.
    cbn [validateStatus withTimeout axiosConfig].
    rewrite Hvalidate. cbn [default]. by rewrite Hinvalid. }
  assert (∀ t, retryable (error t) = true) as Haccept.
  { intros t. unfold retryable. rewrite shouldRetry_unfold. simpl.
    by rewrite (bool_decide_eq_true_2 _ Hstatus), orb_true_r. }
  apply (retryLoop_same_outcome _ _ _ _ _ _ _ error true _
           Hplain' Hthrow Haccept) in Hres as ([t Hresult] & _ & Hall).
  exists (thenMap data res), (if enabled then reg.2 else this), (error t).
  split; [exact Hcall|]. cbn [result attempts thenMap].
  rewrite Hresult. split; [done|]. split; [done|].
  rewrite Z.sub_0_r in Hall. rewrite (Hall eq_refl Hlasts).
  unfold maxAttempts. flat. lia.
Qed.

(** X10. With a retry count of zero or less, and no retry count in the
    caller's config, a call performs a single exchange at most and never
    sleeps, whatever the transport answers. *)
Theorem no_retries_single_exchange (c : Call JsValue) (this' : HttpClient) :
  integerSettings env →
  Merged.retries cfg ≤ 0 →
  (callConfig ≫= Config.axiosRetry) ≫= AxiosRetry.retries = None →
  request' m u payload callConfig opts this = Some (c, this') →
  (attempts c ≤ 1)%nat ∧ sleeps c = [].
Proof.
  intros _ Hnone Hown Hcall.
  assert (retriesOf Number env req = Merged.retries cfg) as Hcount.
  { unfold retriesOf, req. cbn [axiosRetry axiosConfig]. by rewrite Hown. }
  apply request_settles in Hcall as [-> | (res & Hres & Hc)];
    [split; [simpl; lia | done]|].
  apply retryLoop_spec in Hres as (Hlo & Hhi & _ & Hsleeps).
  fold mergedOpts req in Hhi. rewrite Hcount in Hhi. simpl in Hsleeps.
  assert (attempts res = 1%nat) as Hone by lia.
  rewrite Hone in Hsleeps.
  destruct Hc as [->| ->]; cbn [sleeps attempts thenMap timedOut];
    (split; [lia|]); by destruct (sleeps res).
Qed.

(** X11. A call changes the registry at the key of its destination at
    most: the entries of all other keys stay, a well-formed registry
    stays well formed, no logged breaker is dropped, and with the breaker
    disabled the client is left as it was; with the breaker enabled the
    key of the destination is registered afterwards. *)
Theorem request_registry_effect (c : Call JsValue) (this' : HttpClient) :
  wellFormed this →
  request' m u payload callConfig opts this = Some (c, this') →
  wellFormed this'
  ∧ (∀ other : string,
       other ≠ key → breakers this' !! other = breakers this !! other)
  ∧ constructed this `prefix_of` constructed this'
  ∧ (enabled = false → this' = this)
  ∧ (enabled = true → breakers this' !! key = Some reg.1).
Proof.
  intros Hwf Hcall.
  destruct (request_equation Number env newURL
              isNetworkOrIdempotentRequestError transport duration random
              rejects timerFires m u payload callConfig opts this)
    as (res & _ & _ & Heq).
  unfold request' in Hcall. rewrite Heq in Hcall.
  fold mergedOpts key reg enabled in Hcall.
  assert (this' = if enabled then reg.2 else this) as ->.
  { destruct enabled;
      [destruct (rejects reg.1); [|destruct (expires timerFires reg.1)]|];
      congruence. }
  clear Hcall Heq. destruct enabled.
  - split; [by apply wellFormed_getOrCreateBreaker|].
    split; [intros other Hne; by apply getOrCreateBreaker_other|].
    split; [|split; [discriminate|]].
    + unfold reg, getOrCreateBreaker.
      destruct (breakers this !! key); simpl; [done|].
      by apply prefix_app_r.
    + intros _. apply getOrCreateBreaker_registers.
  - split; [exact Hwf|]. split; [done|]. split; [done|].
    split; [done | discriminate].
Qed.

(** X12. An open breaker blocks the calls to its own destination only.
    When every registered breaker that refuses calls is filed under
    another key than the destination of this call, and a breaker that
    this call constructs starts closed, the call is not refused, performs
    at least one exchange and leaves every registered breaker, the
    refusing ones among them, in its place. *)
Theorem breaker_isolation :
  (∀ (other : string) (b : Opossum.CircuitBreaker),
     breakers this !! other = Some b → rejects b = true → other ≠ key) →
  (breakers this !! key = None → rejects reg.1 = false) →
  ∃ (c : Call JsValue) (this' : HttpClient),
    request' m u payload callConfig opts this = Some (c, this')
    ∧ result c ≠ Rejected BreakerOpen
    ∧ (1 ≤ attempts c)%nat
    ∧ (∀ (other : string) (b : Opossum.CircuitBreaker),
         breakers this !! other = Some b → breakers this' !! other = Some b).
Proof.
  intros Hother Hfresh.
  assert (rejects reg.1 = false) as Hclosed.
  { destruct (breakers this !! key) as [b|] eqn:Hin; [|by apply Hfresh].
    unfold reg. rewrite (getOrCreateBreaker_existing _ _ _ _ Hin). simpl.
    destruct (rejects b) eqn:Hrej; [|done].
    by destruct (Hother key b Hin Hrej). }
  destruct (request_equation Number env newURL
              isNetworkOrIdempotentRequestError transport duration random
              rejects timerFires m u payload callConfig opts this)
    as (res & Hres & Hone & Heq).
  fold mergedOpts key reg enabled in Heq. rewrite Hclosed in Heq.
  apply retryLoop_spec in Hres as (_ & _ & [t Hlast] & _).
  assert (result (thenMap data res) ≠ Rejected BreakerOpen) as Hnot.
  { simpl. rewrite Hlast. by destruct (settle _ _). }
  assert (∀ (other : string) (b : Opossum.CircuitBreaker),
            breakers this !! other = Some b →
            breakers reg.2 !! other = Some b) as Hkept
    by (intros other b; apply getOrCreateBreaker_stable).
  destruct enabled; [destruct (expires timerFires reg.1)|];
    eexists _, _; (split; [exact Heq|]);
    cbn [result attempts thenMap timedOut]; repeat split; done.
Qed.
End MoreCalls.

Lemma refused_iff_no_exchange_witness :
  request decimal ∅ httpURL libraryPredicate (always okResponse) instant half
          iamOpen inTime GET usersUrl JNull None None iamClient
  = Some ({| result := Rejected BreakerOpen; attempts := O; sleeps := [] |},
          iamClient)
  ∧ (attempts {| result := @Rejected JsValue BreakerOpen;
                 attempts := O;
                 sleeps := [] |} = O
     ↔ result {| result := @Rejected JsValue BreakerOpen;
                 attempts := O;
                 sleeps := [] |} = Rejected BreakerOpen).
Proof.
  assert (request decimal ∅ httpURL libraryPredicate (always okResponse)
                  instant half iamOpen inTime GET usersUrl JNull None None
                  iamClient
          = Some ({| result := Rejected BreakerOpen;
                     attempts := O;
                     sleeps := [] |}, iamClient)) as Hcall
    by (vm_compute; reflexivity).
  split; [exact Hcall|].
  exact (proj1 (proj2 (refused_iff_no_exchange decimal ∅ httpURL
                         libraryPredicate (always okResponse) instant half
                         iamOpen inTime GET usersUrl JNull None None
                         iamClient _ _ Hcall))).
Defined.

Lemma get_500_call :
  request decimal ∅ httpURL libraryPredicate (always (respond 500 JNull))
          instant half allClosed inTime GET usersUrl JNull None breakerOff
          newHttpClient
  = Some ({| result := Rejected (AxiosFailure (error500 GET 5150));
             attempts := 3;
             sleeps := [300; 550] |}, newHttpClient).
Proof. vm_compute. reflexivity. Qed.

Lemma one_sleep_per_retry_witness :
  request decimal ∅ httpURL libraryPredicate (always (respond 500 JNull))
          instant half allClosed inTime GET usersUrl JNull None breakerOff
          newHttpClient
  = Some ({| result := Rejected (AxiosFailure (error500 GET 5150));
             attempts := 3;
             sleeps := [300; 550] |}, newHttpClient)
  ∧ length [300; 550] = (3 - 1)%nat.
Proof.
  split; [exact get_500_call|].
  exact (one_sleep_per_retry decimal ∅ httpURL libraryPredicate
           (always (respond 500 JNull)) instant half allClosed inTime GET
           usersUrl JNull None breakerOff newHttpClient _ _ get_500_call).
Defined.

Lemma failures_before_last_retryable_witness :
  integerSettings ∅
  ∧ request decimal ∅ httpURL libraryPredicate (always (respond 500 JNull))
            instant half allClosed inTime GET usersUrl JNull None breakerOff
            newHttpClient
    = Some ({| result := Rejected (AxiosFailure (error500 GET 5150));
               attempts := 3;
               sleeps := [300; 550] |}, newHttpClient)
  ∧ (∀ i : nat, (i < 2)%nat →
       ∃ t e, settle (withTimeout (usersRequest GET) t)
                     (always (respond 500 JNull) (usersRequest GET) i)
              = Thrown e
              ∧ shouldRetry libraryPredicate e = true)
  ∧ (shouldRetry libraryPredicate (error500 GET 5150) = false
     ∨ Merged.retries (axiosRetryConfig decimal ∅) < 3
     ∨ (timeout (config (error500 GET 5150)) ≠ 0
        ∧ timeout (config (error500 GET 5150)) - instant 2%nat
          - retryDelay (axiosRetryConfig decimal ∅) 3 (half 2%nat)
          ≤ 0)).
Proof.
  split; [exact integerSettings_empty|]. split; [exact get_500_call|].
  destruct (failures_before_last_retryable decimal ∅ httpURL libraryPredicate
              (always (respond 500 JNull)) instant half allClosed inTime GET
              usersUrl JNull None breakerOff newHttpClient _ _
              integerSettings_empty eq_refl get_500_call) as [Hbefore Hlast].
  split; [exact Hbefore | exact (Hlast (error500 GET 5150) eq_refl)].
Defined.

Lemma first_success_wins_witness :
  integerSettings scenarioEnv
  ∧ settle (usersRequest GET) (scenarioTransport (usersRequest GET) 2%nat)
    = Fulfilled (respond 200 (JStr "ok"))
  ∧ Z.of_nat 2 ≤ Merged.retries (axiosRetryConfig decimal scenarioEnv)
  ∧ timeoutLasts decimal scenarioEnv instant half (usersRequest GET) 2
  ∧ ∃ (c : Call JsValue) (this' : HttpClient),
      request decimal scenarioEnv httpURL libraryPredicate scenarioTransport
              instant half allClosed inTime GET usersUrl JNull None breakerOff
              newHttpClient
      = Some (c, this')
      ∧ result c = Resolved (data (respond 200 (JStr "ok")))
      ∧ attempts c = 3%nat
      ∧ length (sleeps c) = 2%nat.
Proof.
  assert (integerSettings scenarioEnv) as Hint.
  { intros name s _ Hin. unfold scenarioEnv in Hin.
    apply lookup_insert_Some in Hin as [[_ <-]|[_ Hin]]; [reflexivity|].
    apply lookup_singleton_Some in Hin as [_ <-]. reflexivity. }
  assert (timeoutLasts decimal scenarioEnv instant half (usersRequest GET) 2)
    as Hlasts.
  { right. intros [|[|i]] Hi; [vm_compute; reflexivity .. | lia]. }
  split; [exact Hint|]. split; [reflexivity|].
  split; [vm_compute; discriminate|]. split; [exact Hlasts|].
  apply (first_success_wins decimal scenarioEnv httpURL libraryPredicate
           scenarioTransport instant half allClosed inTime GET usersUrl JNull
           None breakerOff newHttpClient (respond 200 (JStr "ok")) 2 Hint).
  - left. reflexivity.
  - reflexivity.
  - intros [|[|i]] t Hi; [| |lia];
      (eexists; split; [reflexivity | reflexivity]).
  - reflexivity.
  - vm_compute. discriminate.
  - exact Hlasts.
Defined.

Lemma sleeps_bounded_witness :
  integerSettings ∅
  ∧ (∀ n : nat, (0 <= half n)%Q ∧ (half n < 1)%Q)
  ∧ request decimal ∅ httpURL libraryPredicate (always (respond 500 JNull))
            instant half allClosed inTime GET usersUrl JNull None breakerOff
            newHttpClient
    = Some ({| result := Rejected (AxiosFailure (error500 GET 5150));
               attempts := 3;
               sleeps := [300; 550] |}, newHttpClient)
  ∧ 0 ≤ Merged.maxDelayMs (axiosRetryConfig decimal ∅)
  ∧ (∀ n : nat, 0 ≤ instant n)
  ∧ 0 < timeout (fields (usersRequest GET))
  ∧ Forall (λ d, d < Merged.maxDelayMs (axiosRetryConfig decimal ∅) + 100
                 ∧ (0 ≤ Merged.baseDelayMs (axiosRetryConfig decimal ∅) →
                    Merged.baseDelayMs (axiosRetryConfig decimal ∅)
                    ≤ Merged.maxDelayMs (axiosRetryConfig decimal ∅) →
                    Merged.baseDelayMs (axiosRetryConfig decimal ∅) ≤ d))
           [300; 550]
  ∧ 300 + (550 + 0)
    ≤ Z.max 0 (Merged.retries (axiosRetryConfig decimal ∅))
      * (Merged.maxDelayMs (axiosRetryConfig decimal ∅) + 99)
  ∧ 300 + (550 + 0) < timeout (fields (usersRequest GET)).
Proof.
  assert (∀ n : nat, (0 <= half n)%Q ∧ (half n < 1)%Q) as Hrandom
    by (intros n; split; [discriminate | reflexivity]).
  assert (0 ≤ Merged.maxDelayMs (axiosRetryConfig decimal ∅)) as Hmax
    by (vm_compute; discriminate).
  assert (∀ n : nat, 0 ≤ instant n) as Hduration by (intros n; done).
  assert (0 < timeout (fields (usersRequest GET))) as Htimeout
    by (vm_compute; reflexivity).
  split; [exact integerSettings_empty|].
  split; [exact Hrandom|]. split; [exact get_500_call|]. split; [exact Hmax|].
  split; [exact Hduration|]. split; [exact Htimeout|].
  destruct (sleeps_bounded decimal ∅ httpURL libraryPredicate
              (always (respond 500 JNull)) instant half allClosed inTime GET
              usersUrl JNull None breakerOff newHttpClient _ _
              integerSettings_empty Hrandom eq_refl get_500_call)
    as (Heach & Htotal & Hwithin).
  split; [exact Heach|].
  split; [exact (Htotal Hmax) | exact (Hwithin Hduration Htimeout)].
Defined.

Lemma retryable_status_exhausts_witness :
  integerSettings ∅
  ∧ status (respond 503 JNull) ∈ [429; 502; 503; 504]
  ∧ (∀ n, always (respond 503 JNull) (usersRequest POST) n
          = Answered (respond 503 JNull))
  ∧ 0 ≤ Merged.retries (axiosRetryConfig decimal ∅)
  ∧ timeoutLasts decimal ∅ instant half (usersRequest POST)
                 (Z.to_nat (Merged.retries (axiosRetryConfig decimal ∅)))
  ∧ ∃ (c : Call JsValue) (this' : HttpClient) (e : AxiosError),
      request decimal ∅ httpURL libraryPredicate (always (respond 503 JNull))
              instant half allClosed inTime POST usersUrl JNull None
              breakerOff newHttpClient
      = Some (c, this')
      ∧ result c = Rejected (AxiosFailure e)
      ∧ response e = Some (respond 503 JNull)
      ∧ Z.of_nat (attempts c) = maxAttempts decimal ∅.
Proof.
  assert (status (respond 503 JNull) ∈ [429; 502; 503; 504]) as Hstatus
    by (simpl; rewrite !elem_of_cons; tauto).
  assert (0 ≤ Merged.retries (axiosRetryConfig decimal ∅)) as Hretries
    by (vm_compute; discriminate).
  assert (timeoutLasts decimal ∅ instant half (usersRequest POST)
                       (Z.to_nat (Merged.retries (axiosRetryConfig decimal ∅))))
    as Hlasts.
  { right. intros [|[|i]] Hi; [vm_compute; reflexivity .. |].
    exfalso. vm_compute in Hi. lia. }
  split; [exact integerSettings_empty|]. split; [exact Hstatus|].
  split; [intros n; reflexivity|]. split; [exact Hretries|].
  split; [exact Hlasts|].
  exact (retryable_status_exhausts decimal ∅ httpURL libraryPredicate
           (always (respond 503 JNull)) instant half allClosed inTime POST
           usersUrl JNull None breakerOff newHttpClient (respond 503 JNull)
           integerSettings_empty (or_introl eq_refl) eq_refl eq_refl Hstatus
           (λ n, eq_refl) Hretries Hlasts).
Defined.

Lemma integerSettings_negativeRetries : integerSettings negativeRetriesEnv.
Proof.
  intros name s _ Hin. unfold negativeRetriesEnv in Hin.
  apply lookup_singleton_Some in Hin as [_ <-]. reflexivity.
Qed.

Lemma no_retries_single_exchange_witness :
  integerSettings negativeRetriesEnv
  ∧ Merged.retries (axiosRetryConfig decimal negativeRetriesEnv) ≤ 0
  ∧ request decimal negativeRetriesEnv httpURL libraryPredicate
            (always (respond 500 JNull)) instant half allClosed inTime GET
            usersUrl JNull None breakerOff newHttpClient
    = Some ({| result := Rejected (AxiosFailure (error500 GET 6000));
               attempts := 1;
               sleeps := [] |}, newHttpClient)
  ∧ (1 ≤ 1)%nat ∧ @nil Z = [].
Proof.
  assert (Merged.retries (axiosRetryConfig decimal negativeRetriesEnv) ≤ 0)
    as Hnone by (vm_compute; discriminate).
  assert (request decimal negativeRetriesEnv httpURL libraryPredicate
                  (always (respond 500 JNull)) instant half allClosed inTime
                  GET usersUrl JNull None breakerOff newHttpClient
          = Some ({| result := Rejected (AxiosFailure (error500 GET 6000));
                     attempts := 1;
                     sleeps := [] |}, newHttpClient)) as Hcall
    by (vm_compute; reflexivity).
  split; [exact integerSettings_negativeRetries|].
  split; [exact Hnone|]. split; [exact Hcall|].
  exact (no_retries_single_exchange decimal negativeRetriesEnv httpURL
           libraryPredicate (always (respond 500 JNull)) instant half
           allClosed inTime GET usersUrl JNull None breakerOff newHttpClient
           _ _ integerSettings_negativeRetries Hnone eq_refl Hcall).
Defined.

Lemma request_registry_effect_witness :
  wellFormed newHttpClient
  ∧ request decimal ∅ httpURL libraryPredicate (always okResponse) instant
            half allClosed inTime GET usersUrl JNull None None newHttpClient
    = Some ({| result := Resolved (data okResponse);
               attempts := 1;
               sleeps := [] |}, iamClient)
  ∧ wellFormed iamClient
  ∧ (∀ other : string,
       other ≠ deriveServiceKey httpURL usersUrl →
       breakers iamClient !! other = breakers newHttpClient !! other)
  ∧ constructed newHttpClient `prefix_of` constructed iamClient.
Proof.
  assert (request decimal ∅ httpURL libraryPredicate (always okResponse)
                  instant half allClosed inTime GET usersUrl JNull None None
                  newHttpClient
          = Some ({| result := Resolved (data okResponse);
                     attempts := 1;
                     sleeps := [] |}, iamClient)) as Hcall
    by (vm_compute; reflexivity).
  split; [exact wellFormed_new|]. split; [exact Hcall|].
  destruct (request_registry_effect decimal ∅ httpURL libraryPredicate
              (always okResponse) instant half allClosed inTime GET usersUrl
              JNull None None newHttpClient _ _ wellFormed_new Hcall)
    as (Hwf & Hother & Hlog & _).
  split; [exact Hwf|]. split; [exact Hother | exact Hlog].
Defined.

(** With the breaker of the IAM service open, a call to the IAM service
    is refused. *)
Example iam_refused :
  fst <$> get decimal ∅ httpURL libraryPredicate (always okResponse) instant
              half iamOpen inTime usersUrl None None twoServices
  = Some {| result := Rejected BreakerOpen; attempts := O; sleeps := [] |}.
Proof. vm_compute. reflexivity. Qed.

Lemma breaker_isolation_witness :
  breakers twoServices !! "iam-service" = Some iamBreaker
  ∧ iamOpen iamBreaker = true
  ∧ (∀ (other : string) (b : Opossum.CircuitBreaker),
       breakers twoServices !! other = Some b → iamOpen b = true →
       other ≠ deriveServiceKey httpURL productsUrl)
  ∧ ∃ (c : Call JsValue) (this' : HttpClient),
      request decimal ∅ httpURL libraryPredicate (always okResponse) instant
              half iamOpen inTime GET productsUrl JNull None None twoServices
      = Some (c, this')
      ∧ result c ≠ Rejected BreakerOpen
      ∧ (1 ≤ attempts c)%nat
      ∧ breakers this' !! "iam-service" = Some iamBreaker.
Proof.
  assert (breakers twoServices !! "iam-service" = Some iamBreaker) as Hiam
    by (vm_compute; reflexivity).
  assert (∀ (other : string) (b : Opossum.CircuitBreaker),
            breakers twoServices !! other = Some b → iamOpen b = true →
            other ≠ deriveServiceKey httpURL productsUrl) as Hother.
  { intros other b Hin Hopen.
    assert (wellFormed twoServices) as [Hmap _]
      by apply wellFormed_getOrCreateAll, wellFormed_new.
    destruct (Hmap other b Hin) as [<- _].
    apply bool_decide_eq_true in Hopen. rewrite Hopen. discriminate. }
  split; [exact Hiam|]. split; [reflexivity|]. split; [exact Hother|].
  destruct (breaker_isolation decimal ∅ httpURL libraryPredicate
              (always okResponse) instant half iamOpen inTime GET productsUrl
              JNull None None twoServices Hother)
    as (c & this' & Hcall & Hpass & Hone & Hkept).
  { intros Hfree. vm_compute in Hfree. discriminate. }
  exists c, this'. split; [exact Hcall|]. split; [exact Hpass|].
  split; [exact Hone | exact (Hkept _ _ Hiam)].
Defined.

(** ** Options that do and do not reach a call *)

(** X13. The [retry] group of the caller's options has no effect on a
    call: [mergeOptions] merges it, but axios-retry keeps the constants
    that the constructor read. Two option objects that differ in the
    [retry] group only give the same result and the same client, and
    options that carry nothing but a [retry] group act as absent
    options. *)
Theorem retry_options_ignored (Number : string → Z)
    (env : gmap string string) (newURL : string → option URL)
    (isNetworkOrIdempotentRequestError : AxiosError → bool)
    (transport : AxiosRequest → nat → Wire) (duration : nat → Z)
    (random : nat → Q) (rejects timerFires : Opossum.CircuitBreaker → bool)
    (m : HttpMethod) (u : string) (payload : JsValue)
    (callConfig : option Config.AxiosRequestConfig) (o : HttpClientOptions)
    (r : option RetryOptions) (this : HttpClient) :
  let request :=
    request Number env newURL isNetworkOrIdempotentRequestError transport
            duration random rejects timerFires m u payload callConfig in
  request (Some (withRetry o r)) this = request (Some o) this
  ∧ request (Some {| timeoutMs := None; retry := r; breaker := None |}) this
    = request None this.
Proof. split; reflexivity. Qed.

(** A call that asks for no retry at all still retries. *)
Example retry_options_ignored_scenario :
  fst <$> get decimal ∅ httpURL libraryPredicate (always (respond 503 JNull))
              instant half allClosed inTime usersUrl None
              ((λ o, withRetry o (Some {| retries := Some 0;
                                          baseDelayMs := None;
                                          maxDelayMs := None |}))
               <$> breakerOff)
              newHttpClient
  = Some {| result := Rejected (AxiosFailure (statusError 503 GET 5150));
            attempts := 3;
            sleeps := [300; 550] |}.
Proof. vm_compute. reflexivity. Qed.

(** X14. The breaker is on by default only when [HTTP_BREAKER_ENABLED]
    is unset or is exactly the string [true]: with any other value, and
    no [breaker.enabled] from the caller, a call consults no breaker, so
    that it is never refused, performs at least one exchange and leaves
    the client unchanged. *)
Theorem breaker_env_flag_strict (Number : string → Z)
    (env : gmap string string) (newURL : string → option URL)
    (isNetworkOrIdempotentRequestError : AxiosError → bool)
    (transport : AxiosRequest → nat → Wire) (duration : nat → Z)
    (random : nat → Q) (rejects timerFires : Opossum.CircuitBreaker → bool)
    (m : HttpMethod) (u : string) (payload : JsValue)
    (callConfig : option Config.AxiosRequestConfig)
    (opts : option HttpClientOptions) (this : HttpClient) (flag : string) :
  env !! "HTTP_BREAKER_ENABLED" = Some flag →
  flag ≠ "true" →
  (opts ≫= breaker) ≫= enabled = None →
  ∃ c : Call JsValue,
    request Number env newURL isNetworkOrIdempotentRequestError transport
            duration random rejects timerFires m u payload callConfig opts
            this
    = Some (c, this)
    ∧ result c ≠ Rejected BreakerOpen
    ∧ (1 ≤ attempts c)%nat.
Proof.
  intros Hflag Hne Hsilent.
  assert (Merged.enabled (Merged.breaker (mergeOptions Number env opts))
          = false) as Hoff.
  { simpl. rewrite Hsilent. simpl. unfold envFlag. rewrite Hflag. simpl.
    by apply bool_decide_eq_false. }
  destruct (request_passes Number env newURL
              isNetworkOrIdempotentRequestError transport duration random
              rejects timerFires m u payload callConfig opts this
              (or_introl Hoff))
    as (res & Hres & Hcall).
  rewrite Hoff in Hcall.
  exists (thenMap data res). split; [exact Hcall|].
  apply retryLoop_spec in Hres as (Hlo & _ & [t Hlast] & _).
  cbn [result attempts thenMap]. split; [|lia].
  rewrite Hlast. by destruct (settle _ _).
Qed.

Lemma breaker_env_flag_strict_witness :
  ({["HTTP_BREAKER_ENABLED" := "TRUE"]} : gmap string string)
    !! "HTTP_BREAKER_ENABLED" = Some "TRUE"
  ∧ "TRUE" ≠ "true"
  ∧ (None ≫= breaker) ≫= enabled = None
  ∧ ∃ c : Call JsValue,
      request decimal {["HTTP_BREAKER_ENABLED" := "TRUE"]} httpURL
              libraryPredicate (always okResponse) instant half (λ _, true)
              (λ _, true) GET usersUrl JNull None None newHttpClient
      = Some (c, newHttpClient)
      ∧ result c ≠ Rejected BreakerOpen
      ∧ (1 ≤ attempts c)%nat.
Proof.
  assert (({["HTTP_BREAKER_ENABLED" := "TRUE"]} : gmap string string)
            !! "HTTP_BREAKER_ENABLED" = Some "TRUE") as Hflag
    by (vm_compute; reflexivity).
  split; [exact Hflag|]. split; [discriminate|]. split; [reflexivity|].
  apply (breaker_env_flag_strict decimal {["HTTP_BREAKER_ENABLED" := "TRUE"]}
           httpURL libraryPredicate (always okResponse) instant half
           (λ _, true) (λ _, true) GET usersUrl JNull None None newHttpClient
           "TRUE" Hflag);
    [discriminate | reflexivity].
Defined.

(** X15. What the caller's config sets takes precedence over the
    arguments of the call, since [doAxios] spreads the config after
    them. When the config names a method, the call does not depend on
    the function of the public API that was called; when it carries
    [data], the call does not depend on the payload; and when it carries
    a [timeout], the call does not depend on the [timeoutMs] of the
    caller's options. *)
Theorem config_takes_precedence (Number : string → Z)
    (env : gmap string string) (newURL : string → option URL)
    (isNetworkOrIdempotentRequestError : AxiosError → bool)
    (transport : AxiosRequest → nat → Wire) (duration : nat → Z)
    (random : nat → Q) (rejects timerFires : Opossum.CircuitBreaker → bool)
    (u : string) (config : Config.AxiosRequestConfig) (this : HttpClient) :
  let request :=
    request Number env newURL isNetworkOrIdempotentRequestError transport
            duration random rejects timerFires in
  (is_Some (Config.method config) →
   ∀ (m m' : HttpMethod) (payload : JsValue)
     (opts : option HttpClientOptions),
     request m u payload (Some config) opts this
     = request m' u payload (Some config) opts this)
  ∧ (is_Some (Config.data config) →
     ∀ (m : HttpMethod) (payload payload' : JsValue)
       (opts : option HttpClientOptions),
       request m u payload (Some config) opts this
       = request m u payload' (Some config) opts this)
  ∧ (is_Some (Config.timeout config) →
     ∀ (m : HttpMethod) (payload : JsValue) (o : HttpClientOptions)
       (t : option Z),
       request m u payload (Some config) (Some (withTimeoutMs o t)) this
       = request m u payload (Some config) (Some o) this).
Proof.
  cbv zeta. destruct config as [cm cu cd ct ch cv ca co]. simpl.
  split; [|split].
  - intros [s ->] m m' payload opts. reflexivity.
  - intros [d ->] m payload payload' opts. reflexivity.
  - intros [t' ->] m payload o t. reflexivity.
Qed.

Lemma config_takes_precedence_witness :
  is_Some (Config.method (overriding "POST" (JStr "body") 200))
  ∧ is_Some (Config.timeout (overriding "POST" (JStr "body") 200))
  ∧ get decimal ∅ httpURL libraryPredicate (always (respond 500 JNull))
        instant half allClosed inTime usersUrl
        (Some (overriding "POST" (JStr "body") 200)) breakerOff newHttpClient
    = post decimal ∅ httpURL libraryPredicate (always (respond 500 JNull))
           instant half allClosed inTime usersUrl JNull
           (Some (overriding "POST" (JStr "body") 200)) breakerOff
           newHttpClient
  ∧ get decimal ∅ httpURL libraryPredicate (always (respond 500 JNull))
        instant half allClosed inTime usersUrl
        (Some (overriding "POST" (JStr "body") 200))
        (breakerOffWithin 9000) newHttpClient
    = get decimal ∅ httpURL libraryPredicate (always (respond 500 JNull))
          instant half allClosed inTime usersUrl
          (Some (overriding "POST" (JStr "body") 200)) breakerOff
          newHttpClient.
Proof.
  assert (is_Some (Config.method (overriding "POST" (JStr "body") 200)))
    as Hmethod by (by eexists).
  assert (is_Some (Config.timeout (overriding "POST" (JStr "body") 200)))
    as Htimeout by (by eexists).
  destruct (config_takes_precedence decimal ∅ httpURL libraryPredicate
              (always (respond 500 JNull)) instant half allClosed inTime
              usersUrl (overriding "POST" (JStr "body") 200) newHttpClient)
    as (Hm & _ & Ht).
  split; [exact Hmethod|]. split; [exact Htimeout|].
  split; [exact (Hm Hmethod GET POST JNull breakerOff)|].
  exact (Ht Htimeout GET JNull
            {| timeoutMs := None;
               retry := None;
               breaker := Some {| enabled := Some false;
                                  breakerTimeoutMs := None;
                                  errorThresholdPercentage := None;
                                  resetTimeoutMs := None;
                                  rollingCountTimeoutMs := None;
                                  rollingCountBuckets := None |} |}
            (Some 9000)).
Defined.

(** A [get] whose config names the method POST is sent as a POST: a 500
    answer is not retried, and the error carries the method, the body
    and the time-out of the config. *)
Example get_sent_as_post :
  fst <$> get decimal ∅ httpURL libraryPredicate (always (respond 500 JNull))
              instant half allClosed inTime usersUrl
              (Some (overriding "POST" (JStr "body") 200)) breakerOff
              newHttpClient
  = Some {| result :=
              Rejected (AxiosFailure
                {| code := Some "ERR_BAD_RESPONSE";
                   response := Some (respond 500 JNull);
                   config := {| method := "post";
                                url := usersUrl;
                                body := JStr "body";
                                timeout := 200;
                                requestHeaders := JObj [];
                                others := [] |} |});
            attempts := 1;
            sleeps := [] |}.
Proof. vm_compute. reflexivity. Qed.

(** ** CORS *)

Lemma split_not_nil (sep : ascii) (s : string) : split sep s ≠ [].
Proof.
  destruct s as [|c s]; simpl; [done|].
  destruct (bool_decide (c = sep)); [done|]. by destruct (split sep s).
Qed.


Lemma split_single (sep : ascii) (piece : string) :
  sep ∉ chars piece → split sep piece = [piece].
Proof.
  induction piece as [|c piece IH]; simpl; [done|].
  rewrite not_elem_of_cons. intros [Hne Hrest].
  rewrite bool_decide_eq_false_2 by congruence. by rewrite IH.
Qed.

Lemma split_app (sep : ascii) (piece rest : string) :
  sep ∉ chars piece →
  split sep (piece +:+ String sep rest) = piece :: split sep rest.
Proof.
  induction piece as [|c piece IH]; simpl.
  - intros _. by rewrite bool_decide_eq_true_2.
  - rewrite not_elem_of_cons. intros [Hne Hrest].
    rewrite bool_decide_eq_false_2 by congruence. by rewrite IH.
Qed.

(** Splitting undoes joining pieces that are free of the separator. *)
Lemma split_join (sep : ascii) (pieces : list string) :
  Forall (λ piece, sep ∉ chars piece) pieces →
  pieces ≠ [] →
  split sep (join sep pieces) = pieces.
Proof.
  induction 1 as [|piece rest Hpiece Hrest IH]; [done|]. intros _.
  destruct rest as [|next rest]; [by apply split_single|].
  change (join sep (piece :: next :: rest))
    with (piece +:+ String sep (join sep (next :: rest))).
  rewrite split_app by done. by rewrite IH.
Qed.

Section CorsProperties.
Variable whiteSpace : ascii → bool.






Lemma trim_blank (s : string) :
  Forall (λ c, whiteSpace c = true) (chars s) →
  trim whiteSpace s = EmptyString.
Proof.
  unfold trim. induction s as [|d s IH]; simpl; [done|].
  intros Hall. inversion Hall as [|? ? Hd Hrest]; subst.
  rewrite Hd. by apply IH.
Qed.

Lemma split_blank (s : string) :
  Forall (λ c, c = ","%char ∨ whiteSpace c = true) (chars s) →
  Forall (λ piece, trim whiteSpace piece = EmptyString) (split "," s).
Proof.
  intros Hall.
  assert (Forall (λ piece, Forall (λ c, whiteSpace c = true) (chars piece))
                 (split "," s)) as Hpieces.
  { induction s as [|d s IH]; simpl.
    - by repeat constructor.
    - inversion Hall as [|? ? Hd Hrest]; subst. specialize (IH Hrest).
      destruct (bool_decide (d = ","%char)) eqn:Hsep.
      + by constructor.
      + apply bool_decide_eq_false in Hsep.
        destruct Hd as [Hd|Hd]; [done|].
        destruct (split "," s) as [|piece rest]; [by repeat constructor|].
        inversion IH; subst. constructor; [|done]. simpl. by constructor. }
  eapply Forall_impl; [exact Hpieces|]. intros piece. apply trim_blank.
Qed.


Lemma clean_origins_kept (origins : list string) :
  Forall (cleanOrigin whiteSpace) origins →
  filter (λ s, s ≠ EmptyString) (trim whiteSpace <$> origins) = origins.
Proof.
  induction 1 as [|origin others (Hne & _ & Htrim) _ IH]; [done|].
  rewrite fmap_cons, Htrim, filter_cons_True by done. by rewrite IH.
Qed.


(** X17. When [CORS_ORIGINS] is unset, or holds nothing but commas and
    white space, no origin is allowed: every request that names an
    origin is refused, while a request without [Origin] header, or with
    an empty one, is let through. *)
Theorem cors_blank_configuration (env : gmap string string) (o : string) :
  Forall (λ c, c = ","%char ∨ whiteSpace c = true)
         (chars (default EmptyString (env !! "CORS_ORIGINS"))) →
  allowedOrigins whiteSpace env = []
  ∧ corsOrigin (allowedOrigins whiteSpace env) None = Allow
  ∧ corsOrigin (allowedOrigins whiteSpace env) (Some EmptyString) = Allow
  ∧ (o ≠ EmptyString →
     corsOrigin (allowedOrigins whiteSpace env) (Some o)
     = Deny "Not allowed by CORS").
Proof.
  intros Hblank.
  assert (allowedOrigins whiteSpace env = []) as Hnone.
  { unfold allowedOrigins. apply split_blank in Hblank.
    induction Hblank as [|piece rest Hpiece _ IH]; [done|].
    rewrite fmap_cons, filter_cons_False; [exact IH|].
    intros Hne. by apply Hne. }
  rewrite Hnone. split; [done|]. split; [done|]. split; [done|].
  intros Hne. unfold corsOrigin.
  rewrite bool_decide_eq_false_2 by done.
  rewrite bool_decide_eq_false_2; [done | apply not_elem_of_nil].
Qed.

End CorsProperties.

(** The padding around the entries of [CORS_ORIGINS] is dropped, and so
    is the empty entry after a trailing comma. *)
Example allowedOrigins_padded :
  allowedOrigins asciiWhiteSpace corsEnv = exampleOrigins.
Proof. vm_compute. reflexivity. Qed.


Lemma cors_blank_configuration_witness :
  Forall (λ c, c = ","%char ∨ asciiWhiteSpace c = true)
         (chars (default EmptyString
                         (({[ "CORS_ORIGINS" := " , ," ]} : gmap string string)
                            !! "CORS_ORIGINS")))
  ∧ "https://app.example.com" ≠ EmptyString
  ∧ allowedOrigins asciiWhiteSpace {[ "CORS_ORIGINS" := " , ," ]} = []
  ∧ corsOrigin (allowedOrigins asciiWhiteSpace {[ "CORS_ORIGINS" := " , ," ]})
               (Some "https://app.example.com")
    = Deny "Not allowed by CORS".
Proof.
  assert (Forall (λ c, c = ","%char ∨ asciiWhiteSpace c = true)
                 (chars (default EmptyString
                           (({[ "CORS_ORIGINS" := " , ," ]}
                             : gmap string string) !! "CORS_ORIGINS"))))
    as Hblank.
  { change (Forall (λ c, c = ","%char ∨ asciiWhiteSpace c = true)
                   (chars " , ,")).
    simpl. repeat constructor; (by left) || (by right). }
  split; [exact Hblank|]. split; [discriminate|].
  destruct (cors_blank_configuration asciiWhiteSpace
              {[ "CORS_ORIGINS" := " , ," ]} "https://app.example.com" Hblank)
    as (Hnone & _ & _ & Hdeny).
  split; [exact Hnone | exact (Hdeny ltac:(discriminate))].
Defined.

(** X18. Reading [CORS_ORIGINS] undoes joining: when the variable holds
    origins joined by commas that consist of ASCII characters, are not
    empty, are free of commas and have no white space at either end, the
    allowed list is the list of these origins in their order, and the
    callback allows an origin exactly when the origin is absent, empty or
    in the list. *)
Theorem cors_round_trip (env : gmap string string) (origins : list string)
    (o : string) :
  Forall (λ origin, asciiOnly origin ∧ cleanOrigin asciiWhiteSpace origin)
         origins →
  env !! "CORS_ORIGINS" = Some (join "," origins) →
  allowedOrigins asciiWhiteSpace env = origins
  ∧ (corsOrigin (allowedOrigins asciiWhiteSpace env) (Some o) = Allow
     ↔ o = EmptyString ∨ o ∈ origins).
Proof.
  intros Hclean Henv.
  assert (Forall (cleanOrigin asciiWhiteSpace) origins) as Hclean'
    by (eapply Forall_impl; [exact Hclean|]; by intros ? [_ ?]).
  assert (allowedOrigins asciiWhiteSpace env = origins) as Hlist.
  { unfold allowedOrigins. rewrite Henv. simpl.
    destruct origins as [|first rest]; [done|].
    rewrite split_join;
      [| eapply Forall_impl; [exact Hclean'|]; by intros ? (_ & ? & _) | done].
    by apply clean_origins_kept. }
  split; [exact Hlist|]. rewrite Hlist. unfold corsOrigin.
  destruct (bool_decide (o = EmptyString)) eqn:Hempty.
  - apply bool_decide_eq_true in Hempty. by split; [left|].
  - apply bool_decide_eq_false in Hempty.
    destruct (bool_decide (o ∈ origins)) eqn:Hin.
    + apply bool_decide_eq_true in Hin. by split; [right|].
    + apply bool_decide_eq_false in Hin.
      split; [discriminate|]. by intros [?|?].
Qed.

Lemma cors_round_trip_witness :
  Forall (λ origin, asciiOnly origin ∧ cleanOrigin asciiWhiteSpace origin)
         exampleOrigins
  ∧ joinedCorsEnv !! "CORS_ORIGINS" = Some (join "," exampleOrigins)
  ∧ allowedOrigins asciiWhiteSpace joinedCorsEnv = exampleOrigins
  ∧ (corsOrigin (allowedOrigins asciiWhiteSpace joinedCorsEnv)
                (Some "https://admin.example.com") = Allow
     ↔ "https://admin.example.com" = EmptyString
       ∨ "https://admin.example.com" ∈ exampleOrigins).
Proof.
  assert (Forall (λ origin,
                    asciiOnly origin ∧ cleanOrigin asciiWhiteSpace origin)
                 exampleOrigins) as Hclean.
  { repeat constructor; try discriminate;
      try (by apply (bool_decide_unpack _));
      unfold lt; simpl; lia. }
  assert (joinedCorsEnv !! "CORS_ORIGINS" = Some (join "," exampleOrigins))
    as Henv by (vm_compute; reflexivity).
  split; [exact Hclean|]. split; [exact Henv|].
  exact (cors_round_trip joinedCorsEnv exampleOrigins
           "https://admin.example.com" Hclean Henv).
Defined.
